(** * Drag-and-drop placement of the form builder

    A shallow embedding of the two drop targets of the form builder:

    - [DragDropReorderingItem] (src/components/Canvas/components/
      DragDropReorderingItem.tsx): the [hover] and [drop] handlers that an
      item of the canvas registers with react-dnd, together with the helper
      [findParentRowLayout];
    - [DeleteZone]: the [drop] handler of the removal target;
    - [classNames]: the helper that joins the truthy class names.

    JavaScript numbers are IEEE 754 binary64 values; they are embedded as
    Rocq's primitive [float], whose operations are the same binary64
    operations (round to nearest, ties to even).  The handlers run in a small
    state-and-exception monad over the part of the world they touch: the
    component's [hoverPosition] state, the drag payload that react-dnd hands
    to every handler of a gesture (one shared, mutable object), and the log of
    the callback props that were invoked. *)

From Stdlib Require Import Bool List String ZArith Lia Floats.
Import ListNotations.

Set Warnings "-inexact-float,-register-all".

Local Open Scope string_scope.
Local Open Scope list_scope.
Local Open Scope float_scope.

(** ** Data model *)

(** A JavaScript [number]. *)
Definition number : Set := float.

(** Modelled from the spec: [FormComponentData] is declared in the
    repository's [types] module, which is not part of the sources at hand.
    The handlers read four of its fields only: the identifier, the type tag,
    the display label and the optional sequence of children (present on
    container types). *)
Inductive FormComponentData : Type :=
  mkFormComponentData {
      comp_id : string;
      comp_type : string;
      comp_label : string;
      comp_children : option (list FormComponentData) }.

(** The values of the [hoverPosition] state:
    ['none' | 'top' | 'bottom' | 'left' | 'right' | 'center']. *)
Inductive HoverPosition : Set :=
| PNone | PTop | PBottom | PLeft | PRight | PCenter.

Definition HoverPosition_eq_dec (a b : HoverPosition) : {a = b} + {a <> b}.
Proof. decide equality. Defined.

(** The rectangle returned by [getBoundingClientRect]. *)
Record DOMRect : Set :=
  { rect_left : number; rect_top : number;
    rect_width : number; rect_height : number }.

(** The pointer position returned by [monitor.getClientOffset]. *)
Record XYCoord : Set := { coord_x : number; coord_y : number }.

(** The part of react-dnd's monitor the handlers consult:
    [getClientOffset ()] is an [XYCoord] or [null]. *)
Record DropTargetMonitor : Set := { getClientOffset : option XYCoord }.

(** The drag payload.  The handlers take it as [any] and sniff its shape, so
    the two fields they test for presence are optional: [item_type] is [None]
    when the payload has no string-valued [type], [item_component] is [None]
    when it carries no component (an object is always truthy). *)
Record DragItem : Type :=
  { item_type : option string;
    item_id : string;
    item_index : number;
    item_component : option FormComponentData }.

(** The props the handlers use.  [onMoveComponent] is a required prop; the
    two row callbacks are optional, and the booleans record whether they were
    supplied. *)
Record Props : Type :=
  { component : FormComponentData;
    index : number;
    onCreateRowLayout : bool;
    onAddToRowLayout : bool;
    allComponents : list FormComponentData }.

(** An invocation of one of the callback props, with its arguments. *)
Inductive Call : Type :=
| MoveComponent (dragIndex hoverIndex : number)
| CreateRowLayout (draggedComponent targetComponent : FormComponentData)
                  (position : HoverPosition)
| AddToRowLayout (draggedComponent targetRowLayout : FormComponentData)
                 (position : HoverPosition).

(** ** The handler monad *)

Record World : Type :=
  { hoverPosition : HoverPosition;
    dragItem : DragItem;
    calls : list Call }.

Inductive JsError : Set := TypeError.

Inductive Outcome (A : Type) : Type :=
| Returned (a : A) (w : World)
| Thrown (e : JsError) (w : World).
Arguments Returned {A} a w.
Arguments Thrown {A} e w.

Definition Handler (A : Type) : Type := World -> Outcome A.

Definition ret {A} (a : A) : Handler A := fun w => Returned a w.

Definition bind {A B} (m : Handler A) (k : A -> Handler B) : Handler B :=
  fun w => match m w with
           | Returned a w' => k a w'
           | Thrown e w' => Thrown e w'
           end.

Definition throw {A} (e : JsError) : Handler A := fun w => Thrown e w.

Notation "x <- m ;; k" := (bind m (fun x => k))
  (at level 61, m at next level, right associativity).
Notation "m ;;; k" := (bind m (fun _ => k))
  (at level 61, right associativity).

Definition getHoverPosition : Handler HoverPosition :=
  fun w => Returned (hoverPosition w) w.

Definition setHoverPosition (p : HoverPosition) : Handler unit :=
  fun w => Returned tt {| hoverPosition := p;
                          dragItem := dragItem w;
                          calls := calls w |}.

Definition getItem : Handler DragItem :=
  fun w => Returned (dragItem w) w.

(** [item.index = i]: the payload object is updated in place. *)
Definition setItemIndex (i : number) : Handler unit :=
  fun w => Returned tt
             {| hoverPosition := hoverPosition w;
                dragItem := {| item_type := item_type (dragItem w);
                               item_id := item_id (dragItem w);
                               item_index := i;
                               item_component := item_component (dragItem w) |};
                calls := calls w |}.

Definition invoke (c : Call) : Handler unit :=
  fun w => Returned tt {| hoverPosition := hoverPosition w;
                          dragItem := dragItem w;
                          calls := calls w ++ [c] |}.

(** Calling a prop that was not supplied is a [TypeError]. *)
Definition call_onMoveComponent (dragIndex hoverIndex : number) : Handler unit :=
  invoke (MoveComponent dragIndex hoverIndex).

Definition call_onCreateRowLayout (P : Props) (d t : FormComponentData)
           (pos : HoverPosition) : Handler unit :=
  if onCreateRowLayout P then invoke (CreateRowLayout d t pos)
  else throw TypeError.

Definition call_onAddToRowLayout (P : Props) (d r : FormComponentData)
           (pos : HoverPosition) : Handler unit :=
  if onAddToRowLayout P then invoke (AddToRowLayout d r pos)
  else throw TypeError.

(** [ref.current.getBoundingClientRect ()]: a [TypeError] on a null ref. *)
Definition getBoundingClientRect (refCurrent : option DOMRect) : Handler DOMRect :=
  match refCurrent with
  | Some r => ret r
  | None => throw TypeError
  end.

(** ** The hit classifier *)

(** [const edgeZone = 0.3]: the binary64 value nearest to 3/10. *)
Definition edgeZone : number := 0.3.

(** The cascade of lines 100-119, repeated verbatim at lines 151-171, on the
    box-local coordinates [x], [y]. *)
Definition position_at (x y width height : number) : HoverPosition :=
  let topZone := height * edgeZone in
  let bottomZone := height * (1 - edgeZone) in
  let leftZone := width * edgeZone in
  let rightZone := width * (1 - edgeZone) in
  if y <? topZone then PTop
  else if bottomZone <? y then PBottom
  else if x <? leftZone then PLeft
  else if rightZone <? x then PRight
  else PCenter.

(** Lines 95-119 and 145-171: the pointer is translated into the box and
    classified. *)
Definition classify (clientOffset : XYCoord) (hoverBoundingRect : DOMRect)
  : HoverPosition :=
  let width := rect_width hoverBoundingRect in
  let height := rect_height hoverBoundingRect in
  let x := coord_x clientOffset - rect_left hoverBoundingRect in
  let y := coord_y clientOffset - rect_top hoverBoundingRect in
  position_at x y width height.

(** ** [DragDropReorderingItem] *)

Definition isSome {A} (o : option A) : bool :=
  match o with Some _ => true | None => false end.

(** [!item.component && item.type && typeof item.type === 'string'] *)
Definition isPaletteComponent (item : DragItem) : bool :=
  negb (isSome (item_component item))
  && match item_type item with
     | Some t => negb (String.eqb t "")
     | None => false
     end.

(** [item.type === 'horizontal-component' && item.component] *)
Definition isHorizontalComponent (item : DragItem) : bool :=
  match item_type item with
  | Some t => String.eqb t "horizontal-component"
  | None => false
  end
  && isSome (item_component item).

(** [comp.children.some (child => child.id === targetComponent.id)] *)
Definition hasChild (targetComponent : FormComponentData)
           (children : list FormComponentData) : bool :=
  existsb (fun child => String.eqb (comp_id child) (comp_id targetComponent))
          children.

(** The loop of [findParentRowLayout] over the components it still has to
    visit. *)
Fixpoint findParentRowLayout_in (comps : list FormComponentData)
         (targetComponent : FormComponentData) : option FormComponentData :=
  match comps with
  | [] => None
  | comp :: rest =>
      if String.eqb (comp_type comp) "horizontal_layout" then
        match comp_children comp with
        | Some children =>
            if hasChild targetComponent children then Some comp
            else findParentRowLayout_in rest targetComponent
        | None => findParentRowLayout_in rest targetComponent
        end
      else findParentRowLayout_in rest targetComponent
  end.

Definition findParentRowLayout (P : Props) (targetComponent : FormComponentData)
  : option FormComponentData :=
  findParentRowLayout_in (allComponents P) targetComponent.

Definition isTopOrBottom (p : HoverPosition) : bool :=
  match p with PTop | PBottom => true | _ => false end.

Definition isLeftOrRight (p : HoverPosition) : bool :=
  match p with PLeft | PRight => true | _ => false end.

(** The [hover] handler.  [refCurrent] is the mounted element's bounding
    rectangle, or [None] while [ref.current] is null.  The [console.log]
    diagnostics of the handlers are left out. *)
Definition hover (P : Props) (refCurrent : option DOMRect)
           (monitor : DropTargetMonitor) : Handler unit :=
  item <- getItem ;;
  if negb (isSome refCurrent) then ret tt
  else if isPaletteComponent item || isHorizontalComponent item then
    hoverBoundingRect <- getBoundingClientRect refCurrent ;;
    match getClientOffset monitor with
    | None => setHoverPosition PNone
    | Some clientOffset =>
        setHoverPosition (classify clientOffset hoverBoundingRect)
    end
  else
    let dragIndex := item_index item in
    let hoverIndex := index P in
    if dragIndex =? hoverIndex then setHoverPosition PNone
    else
      hoverBoundingRect <- getBoundingClientRect refCurrent ;;
      match getClientOffset monitor with
      | None => setHoverPosition PNone
      | Some clientOffset =>
          let height := rect_height hoverBoundingRect in
          let y := coord_y clientOffset - rect_top hoverBoundingRect in
          let position := classify clientOffset hoverBoundingRect in
          setHoverPosition position ;;;
          if isTopOrBottom position then
            let hoverMiddleY := height / 2 in
            let hoverClientY := y in
            if (dragIndex <? hoverIndex) && (hoverClientY <? hoverMiddleY)
            then ret tt
            else if (hoverIndex <? dragIndex) && (hoverMiddleY <? hoverClientY)
            then ret tt
            else
              call_onMoveComponent dragIndex hoverIndex ;;;
              setItemIndex hoverIndex
          else ret tt
      end.

(** The left/right branch of [drop], lines 225-237. *)
Definition requestRow (P : Props) (draggedComponent : FormComponentData)
           (finalPosition : HoverPosition) : Handler unit :=
  let createRow :=
    if onCreateRowLayout P
    then call_onCreateRowLayout P draggedComponent (component P) finalPosition
    else ret tt in
  match findParentRowLayout P (component P) with
  | Some parentRowLayout =>
      if onAddToRowLayout P
      then call_onAddToRowLayout P draggedComponent parentRowLayout finalPosition
      else createRow
  | None => createRow
  end.

(** The [drop] handler. *)
Definition drop (P : Props) : Handler unit :=
  item <- getItem ;;
  finalPosition <- getHoverPosition ;;
  setHoverPosition PNone ;;;
  if isPaletteComponent item then ret tt
  else if isHorizontalComponent item then ret tt
  else
    match item_component item with
    | Some draggedComponent =>
        if isLeftOrRight finalPosition
        then requestRow P draggedComponent finalPosition
        else ret tt
    | None => ret tt
    end.

(** ** Gestures *)

(** What can happen to an item during a drag.  The component registers a
    [hover] and a [drop] handler and nothing else: when the pointer leaves
    the item, or the drag ends elsewhere, none of its code runs. *)
Inductive Event : Type :=
| Hover (refCurrent : option DOMRect) (monitor : DropTargetMonitor)
| Drop
| PointerLeave.

Definition dispatch (P : Props) (ev : Event) : Handler unit :=
  match ev with
  | Hover refCurrent monitor => hover P refCurrent monitor
  | Drop => drop P
  | PointerLeave => ret tt
  end.

Fixpoint run (P : Props) (evs : list Event) : Handler unit :=
  match evs with
  | [] => ret tt
  | ev :: rest => dispatch P ev ;;; run P rest
  end.

(** The world in which the outcome of a handler leaves the component. *)
Definition world_of {A} (o : Outcome A) : World :=
  match o with Returned _ w => w | Thrown _ w => w end.

Definition returned {A} (o : Outcome A) : bool :=
  match o with Returned _ _ => true | Thrown _ _ => false end.

(** ** [DeleteZone] *)

Module DeleteZone.

(** [item: { type: string; id: string; componentType?: string }] *)
Record Item : Set :=
  { type : string; id : string; componentType : option string }.

(** The [drop] handler: the list of [onDelete] calls it makes, each with
    its argument. *)
Definition drop (item : Item) : list string :=
  if String.eqb (type item) "existing-component"
     && negb (String.eqb (id item) "")
  then [id item]
  else [].

End DeleteZone.

(** ** The classifier as the specification words it *)

(** The cascade with the spec's thresholds written out: margin fraction
    [0.3], hence [height * 0.3], [height * 0.7], [width * 0.3] and
    [width * 0.7]; checks in the order top, bottom, left, right, centre. *)
Definition classify_spec (pointer : XYCoord) (box : DOMRect) : HoverPosition :=
  let x := coord_x pointer - rect_left box in
  let y := coord_y pointer - rect_top box in
  if y <? rect_height box * 0.3 then PTop
  else if rect_height box * 0.7 <? y then PBottom
  else if x <? rect_width box * 0.3 then PLeft
  else if rect_width box * 0.7 <? x then PRight
  else PCenter.

(** The box [{left: 0, top: 0, width: 100, height: 100}] of the spec's
    examples. *)
Definition box100 : DOMRect :=
  {| rect_left := 0; rect_top := 0; rect_width := 100; rect_height := 100 |}.

Definition pointer (x y : number) : DropTargetMonitor :=
  {| getClientOffset := Some {| coord_x := x; coord_y := y |} |}.

(** Whether a reorder tick at box-local height [y] passes the directional
    guard of lines 176-188. *)
Definition commits (dragIndex hoverIndex y height : number)
           (position : HoverPosition) : bool :=
  isTopOrBottom position
  && negb ((dragIndex <? hoverIndex) && (y <? height / 2))
  && negb ((hoverIndex <? dragIndex) && (height / 2 <? y)).

(** ** Sample data *)

Definition leaf (id label : string) : FormComponentData :=
  mkFormComponentData id "text_input" label None.

Definition nodeA : FormComponentData := leaf "a" "A".
Definition nodeB : FormComponentData := leaf "b" "B".
Definition nodeC : FormComponentData := leaf "c" "C".

(** A row layout that already holds [nodeB] and [nodeC]. *)
Definition rowR : FormComponentData :=
  mkFormComponentData "r" "horizontal_layout" "Row" (Some [nodeB; nodeC]).

(** The payload that [useDrag] builds for an item (lines 58-63). *)
Definition reorderItem (c : FormComponentData) (i : number) : DragItem :=
  {| item_type := Some "reorder-component";
     item_id := comp_id c;
     item_index := i;
     item_component := Some c |}.

(** A palette payload: a type tag and no component. *)
Definition paletteItem (t : string) : DragItem :=
  {| item_type := Some t; item_id := ""; item_index := 0;
     item_component := None |}.

(** A row-member payload. *)
Definition rowMemberItem (c : FormComponentData) (i : number) : DragItem :=
  {| item_type := Some "horizontal-component";
     item_id := comp_id c;
     item_index := i;
     item_component := Some c |}.

Definition world0 (item : DragItem) (p : HoverPosition) : World :=
  {| hoverPosition := p; dragItem := item; calls := [] |}.

(** A reorder-origin payload: it carries an existing component and is not a
    row member. *)
Definition reorderOrigin (item : DragItem) (d : FormComponentData) : Prop :=
  item_component item = Some d /\ isHorizontalComponent item = false.

(** ** Sequences of hover ticks *)

Definition hoverTicks (ticks : list (option DOMRect * DropTargetMonitor))
  : list Event :=
  map (fun t => Hover (fst t) (snd t)) ticks.

Definition anyMounted (ticks : list (option DOMRect * DropTargetMonitor)) : bool :=
  existsb (fun t => isSome (fst t)) ticks.

(** ** Claims that the code departs from, as they are worded *)

(** C2 as worded: every left/right drop of a reorder-origin payload issues
    the add-to-row request when the lookup finds a row, the create-row
    request when it finds none. *)
Definition row_request_claim : Prop :=
  forall P w d,
    reorderOrigin (dragItem w) d ->
    isLeftOrRight (hoverPosition w) = true ->
    (forall R, findParentRowLayout P (component P) = Some R ->
               exists w', drop P w = Returned tt w'
                          /\ calls w' = calls w ++ [AddToRowLayout d R (hoverPosition w)])
    /\ (findParentRowLayout P (component P) = None ->
        exists w', drop P w = Returned tt w'
                   /\ calls w' = calls w
                                   ++ [CreateRowLayout d (component P) (hoverPosition w)]).

(** C7 as worded: within a gesture the cached position is recomputed by
    every hover tick, and is none after a drop and after the pointer has
    left the item. *)
Definition zone_lifecycle_claim : Prop :=
  forall P evs w,
    (forall box monitor w2,
        dragItem w2 = dragItem w ->
        hoverPosition (world_of (hover P (Some box) monitor w2))
        = hoverPosition (world_of (hover P (Some box) monitor w)))
    /\ hoverPosition (world_of (run P (evs ++ [Drop]) w)) = PNone
    /\ hoverPosition (world_of (run P (evs ++ [PointerLeave]) w)) = PNone.

(** The canvas of the examples: [nodeA] at index 0, then the row [rowR]
    holding [nodeB] and [nodeC]; the item under the pointer shows [nodeB]. *)
Definition propsB (onCreate onAdd : bool) : Props :=
  {| component := nodeB; index := 1;
     onCreateRowLayout := onCreate; onAddToRowLayout := onAdd;
     allComponents := [nodeA; rowR] |}.

(** The item of [nodeB] at list position [i]. *)
Definition propsAt (i : number) : Props :=
  {| component := nodeB; index := i;
     onCreateRowLayout := true; onAddToRowLayout := true;
     allComponents := [nodeA; nodeB] |}.

(** C3 as worded: with [dragIndex = 2] and [hoverIndex = 5], a hover tick at
    [y = height * 0.4] commits nothing, a tick at [y = height * 0.6] commits
    one move and leaves the tracked index at 5, and a downward move commits
    only at or past the midpoint. *)
Definition directional_guard_claim : Prop :=
  forall P box clientOffset w d,
    reorderOrigin (dragItem w) d ->
    item_index (dragItem w) = 2 -> index P = 5 ->
    let y := coord_y clientOffset - rect_top box in
    let height := rect_height box in
    let w' := world_of (hover P (Some box)
                              {| getClientOffset := Some clientOffset |} w) in
    (y = height * 0.4 -> calls w' = calls w)
    /\ (y = height * 0.6 ->
        calls w' = calls w ++ [MoveComponent 2 5]
        /\ item_index (dragItem w') = 5)
    /\ (calls w' <> calls w -> (height / 2 <=? y) = true).

(** ** Binary64 rounding, for the proofs about thresholds *)

Section RoundingDefinitions.
Local Open Scope Z_scope.

(** [M / 2^n] rounded to the nearest integer, ties to even. *)
Definition rne (M n : Z) : Z :=
  let q := M / 2 ^ n in
  match 2 * (M mod 2 ^ n) ?= 2 ^ n with
  | Lt => q
  | Eq => if Z.even q then q else q + 1
  | Gt => q + 1
  end.

(** What [k] right shifts leave of the mantissa [M]: the quotient, and the
    position of the remainder with respect to half of [2^k]. *)
Definition shifted (M k : Z) (mrs : shr_record) : Prop :=
  exists rem,
    M = shr_m mrs * 2 ^ k + rem /\ 0 <= rem < 2 ^ k /\ 0 <= shr_m mrs /\
    match shr_r mrs, shr_s mrs with
    | false, false => rem = 0
    | false, true => 0 < rem /\ 2 * rem < 2 ^ k
    | true, false => 2 * rem = 2 ^ k
    | true, true => 2 ^ k < 2 * rem
    end.

(** The float that the mantissa [q] at exponent [t] denotes, once a
    mantissa that has grown to [2^53] is renormalised and the exponent is
    checked against the largest one. *)
Definition pack (s : bool) (q t : Z) : spec_float :=
  match q with
  | Z0 => S754_zero s
  | Zpos p =>
      if q <? 2 ^ 53
      then if t <=? 971 then S754_finite s p t else S754_infinity s
      else if t + 1 <=? 971 then S754_finite s (Pos.div2 p) (t + 1)
           else S754_infinity s
  | Zneg _ => S754_nan
  end.

(** The numbers [2] and [1/2] as [Prim2SF] shows them. *)
Definition SFtwo : spec_float := S754_finite false 4503599627370496 (-51).
Definition SFhalf : spec_float := S754_finite false 4503599627370496 (-53).

(** A key under which the floats that are numbers compare
    lexicographically the way [SFcompare] orders them. *)
Definition SFkey (x : spec_float) : option (Z * Z * Z) :=
  match x with
  | S754_nan => None
  | S754_infinity true => Some (-2, 0, 0)
  | S754_finite true m e => Some (-1, - e, - Z.pos m)
  | S754_zero _ => Some (0, 0, 0)
  | S754_finite false m e => Some (1, e, Z.pos m)
  | S754_infinity false => Some (2, 0, 0)
  end.

Definition key_lt (a b : Z * Z * Z) : Prop :=
  let '(a1, a2, a3) := a in
  let '(b1, b2, b3) := b in
  a1 < b1 \/ (a1 = b1 /\ (a2 < b2 \/ (a2 = b2 /\ a3 < b3))).

End RoundingDefinitions.

(** ** The payload an item builds *)

(** [useDrag]'s [item] factory, lines 58-63: the payload of a drag that
    starts on the item with props [P]. *)
Definition useDrag_item (P : Props) : DragItem :=
  {| item_type := Some "reorder-component";
     item_id := comp_id (component P);
     item_index := index P;
     item_component := Some (component P) |}.

(** ** Reading the parent lookup *)

(** The test of lines 46-47: [comp] is a row layout with a children array
    that holds a child with the target's id. *)
Definition holdsTarget (targetComponent comp : FormComponentData) : bool :=
  String.eqb (comp_type comp) "horizontal_layout"
  && match comp_children comp with
     | Some children => hasChild targetComponent children
     | None => false
     end.

(** ** Reading the call log *)

(** The calls that the handlers of the item with props [P] may make on
    behalf of a payload: a move to the item's own index, or a row request
    for the payload's component, to the left or right of the item's
    component or of the row that holds it. *)
Definition callAllowed (P : Props) (item : DragItem) (c : Call) : Prop :=
  match c with
  | MoveComponent _ hoverIndex => hoverIndex = index P
  | CreateRowLayout d t pos =>
      item_component item = Some d /\ t = component P
      /\ isLeftOrRight pos = true /\ onCreateRowLayout P = true
  | AddToRowLayout d R pos =>
      item_component item = Some d
      /\ findParentRowLayout P (component P) = Some R
      /\ isLeftOrRight pos = true /\ onAddToRowLayout P = true
  end.

Definition isMove (c : Call) : bool :=
  match c with MoveComponent _ _ => true | _ => false end.

Definition isDropEvent (ev : Event) : bool :=
  match ev with Drop => true | _ => false end.

Definition isHoverEvent (ev : Event) : bool :=
  match ev with Hover _ _ => true | _ => false end.

(** The fields of the payload that identify the dragged component. *)
Definition sameIdentity (a b : DragItem) : Prop :=
  item_type a = item_type b /\ item_id a = item_id b
  /\ item_component a = item_component b.

(** ** [classNames] *)

(** An argument of [classNames]: [string | undefined | null | false]. *)
Inductive ClassValue : Set :=
| ClassString (s : string)
| ClassUndefined
| ClassNull
| ClassFalse.

(** [Boolean (c)]: of these values only a non-empty string is truthy. *)
Definition toBoolean (c : ClassValue) : bool :=
  match c with
  | ClassString s => negb (String.eqb s "")
  | _ => false
  end.

(** How [Array.prototype.join] prints an element: [undefined] and [null] as
    the empty string, anything else by [ToString]. *)
Definition joinString (c : ClassValue) : string :=
  match c with
  | ClassString s => s
  | ClassUndefined | ClassNull => ""
  | ClassFalse => "false"
  end.

(** [elements.join (sep)] *)
Fixpoint join (sep : string) (elements : list ClassValue) : string :=
  match elements with
  | [] => ""
  | [c] => joinString c
  | c :: rest => String.append (joinString c) (String.append sep (join sep rest))
  end.

(** [classes.filter (Boolean).join (' ')] *)
Definition classNames (classes : list ClassValue) : string :=
  join " " (filter toBoolean classes).

(** The number [1] as [Prim2SF] shows it. *)
Definition SFone : spec_float := S754_finite false 4503599627370496 (-52)%Z.

(** ** Reading a hover tick followed by a drop *)

(** The move that a reorder tick commits, if any (lines 176-193). *)
Definition tickMoves (P : Props) (item : DragItem) (box : DOMRect)
           (clientOffset : XYCoord) : list Call :=
  if commits (item_index item) (index P)
             (coord_y clientOffset - rect_top box) (rect_height box)
             (classify clientOffset box)
  then [MoveComponent (item_index item) (index P)]
  else [].

(** The row request that a drop issues for the cached position [pos], if
    any (lines 225-237). *)
Definition dropRequests (P : Props) (d : FormComponentData)
           (pos : HoverPosition) : list Call :=
  if isLeftOrRight pos
  then match findParentRowLayout P (component P), onAddToRowLayout P with
       | Some R, true => [AddToRowLayout d R pos]
       | _, _ => if onCreateRowLayout P
                 then [CreateRowLayout d (component P) pos]
                 else []
       end
  else [].

(** * Properties *)

(** ** Binary64 rounding

    [SpecFloat] gives the primitive operations their meaning: a product or a
    quotient is computed exactly on mantissas and exponents and then rounded
    by [binary_round_aux].  This section reads that rounding as "nearest
    integer of [M / 2^n], ties to even" and derives what the thresholds of
    the classifier need: rounding is monotone, and halving is exact up to
    that same rounding. *)

Section Rounding.
Local Open Scope Z_scope.
Local Notation "'fexp64'" := (SpecFloat.fexp prec emax).

Lemma iter_pos_nat {A} (f : A -> A) p x :
  iter_pos f p x = Nat.iter (Pos.to_nat p) f x.
Proof.
  revert x. induction p as [p IH|p IH|]; intros x; cbn [iter_pos].
  - rewrite !IH, Pos2Nat.inj_xI, <- Nat.iter_add.
    replace (2 * Pos.to_nat p)%nat with (Pos.to_nat p + Pos.to_nat p)%nat by lia.
    now rewrite Nat.iter_succ_r.
  - rewrite !IH, Pos2Nat.inj_xO, <- Nat.iter_add.
    now replace (2 * Pos.to_nat p)%nat with (Pos.to_nat p + Pos.to_nat p)%nat by lia.
  - reflexivity.
Qed.

Lemma shifted_0 M : 0 <= M -> shifted M 0 (Build_shr_record M false false).
Proof. intros H. exists 0. cbn. lia. Qed.

Lemma shifted_step M k mrs :
  0 <= k -> shifted M k mrs -> shifted M (k + 1) (shr_1 mrs).
Proof.
  intros Hk (rem & HM & Hrem & Hm & Hloc).
  destruct mrs as [m r s]. cbn [shr_m shr_r shr_s] in *.
  assert (H2 : 2 ^ (k + 1) = 2 * 2 ^ k) by (rewrite Z.pow_add_r by lia; lia).
  assert (Hp : 0 < 2 ^ k) by (apply Z.pow_pos_nonneg; lia).
  destruct m as [|[p|p|]|p]; try lia; cbn [shr_1].
  - exists rem. cbn [shr_m shr_r shr_s]. rewrite H2.
    destruct r, s; cbn [orb]; lia.
  - exists (2 ^ k + rem). cbn [shr_m shr_r shr_s]. rewrite H2.
    destruct r, s; cbn [orb]; lia.
  - exists rem. cbn [shr_m shr_r shr_s]. rewrite H2.
    destruct r, s; cbn [orb]; lia.
  - exists (2 ^ k + rem). cbn [shr_m shr_r shr_s]. rewrite H2.
    destruct r, s; cbn [orb]; lia.
Qed.

Lemma shifted_iter M (k : nat) :
  0 <= M ->
  shifted M (Z.of_nat k) (Nat.iter k shr_1 (Build_shr_record M false false)).
Proof.
  intros HM. induction k as [|k IH].
  - now apply shifted_0.
  - rewrite Nat2Z.inj_succ, <- Z.add_1_r. cbn [Nat.iter nat_rect].
    apply shifted_step; [lia|exact IH].
Qed.

Lemma shifted_rne M k mrs :
  0 <= k -> shifted M k mrs ->
  round_nearest_even (shr_m mrs) (loc_of_shr_record mrs) = rne M k.
Proof.
  intros Hk (rem & HM & Hrem & Hm & Hloc).
  assert (Hp : 0 < 2 ^ k) by (apply Z.pow_pos_nonneg; lia).
  assert (Hq : M / 2 ^ k = shr_m mrs).
  { symmetry. apply (Z.div_unique M (2 ^ k) (shr_m mrs) rem); lia. }
  assert (Hr : M mod 2 ^ k = rem).
  { symmetry. apply (Z.mod_unique M (2 ^ k) (shr_m mrs) rem); lia. }
  unfold rne. rewrite Hq, Hr.
  destruct mrs as [m r s]. cbn [shr_m shr_r shr_s loc_of_shr_record] in *.
  destruct r, s; cbn [round_nearest_even].
  - now replace (2 * rem ?= 2 ^ k) with Gt by (symmetry; apply Z.compare_gt_iff; lia).
  - now replace (2 * rem ?= 2 ^ k) with Eq by (symmetry; apply Z.compare_eq_iff; lia).
  - now replace (2 * rem ?= 2 ^ k) with Lt by (symmetry; apply Z.compare_lt_iff; lia).
  - now replace (2 * rem ?= 2 ^ k) with Lt by (symmetry; apply Z.compare_lt_iff; lia).
Qed.

(** Bounds on the rounded quotient. *)
Lemma rne_bounds M n :
  0 <= M -> 0 <= n ->
  (2 * rne M n - 1) * 2 ^ n <= 2 * M <= (2 * rne M n + 1) * 2 ^ n
  /\ M / 2 ^ n <= rne M n <= M / 2 ^ n + 1.
Proof.
  intros HM Hn. unfold rne.
  assert (Hp : 0 < 2 ^ n) by (apply Z.pow_pos_nonneg; lia).
  pose proof (Z.div_mod M (2 ^ n) ltac:(lia)) as Hdm.
  pose proof (Z.mod_pos_bound M (2 ^ n) Hp) as Hb.
  set (q := M / 2 ^ n) in *. set (r := M mod 2 ^ n) in *.
  destruct (Z.compare_spec (2 * r) (2 ^ n)); [destruct (Z.even q)| |]; nia.
Qed.


Lemma fexp64_eq e : fexp64 e = Z.max (e - 53) (-1074).
Proof. reflexivity. Qed.

Lemma digits2_pos_size p : digits2_pos p = Pos.size p.
Proof. induction p; cbn; congruence. Qed.

Lemma Zdigits2_bounds M :
  0 < M -> 0 < Zdigits2 M /\ 2 ^ (Zdigits2 M - 1) <= M < 2 ^ Zdigits2 M.
Proof.
  destruct M as [|p|p]; try lia. intros _. cbn [Zdigits2].
  rewrite digits2_pos_size. split; [lia|].
  pose proof (Pos.size_gt p) as Hgt. pose proof (Pos.size_le p) as Hle.
  apply Pos2Z.pos_lt_pos in Hgt. apply Pos2Z.pos_le_pos in Hle.
  rewrite Pos2Z.inj_pow in Hgt, Hle.
  replace (Z.pos (Pos.size p)) with (Z.pos (Pos.size p) - 1 + 1) in Hle at 1 by lia.
  rewrite Z.pow_add_r in Hle by lia. change (Z.pos p~0) with (2 * Z.pos p) in Hle.
  lia.
Qed.

Lemma Zdigits2_unique q d :
  0 < d -> 2 ^ (d - 1) <= q < 2 ^ d -> Zdigits2 q = d.
Proof.
  intros Hd Hq.
  assert (Hq0 : 0 < q).
  { pose proof (Z.pow_pos_nonneg 2 (d - 1)). lia. }
  destruct (Zdigits2_bounds q Hq0) as (Hd' & Hl & Hu).
  destruct (Z.lt_trichotomy (Zdigits2 q) d) as [H|[H|H]]; [|exact H|].
  - assert (2 ^ Zdigits2 q <= 2 ^ (d - 1)) by (apply Z.pow_le_mono_r; lia). lia.
  - assert (2 ^ d <= 2 ^ (Zdigits2 q - 1)) by (apply Z.pow_le_mono_r; lia). lia.
Qed.

Lemma Zdigits2_le q d :
  0 <= d -> 0 <= q < 2 ^ d -> Zdigits2 q <= d.
Proof.
  intros Hd Hq. destruct (Z.eq_dec q 0) as [->|Hn]; [cbn; lia|].
  destruct (Zdigits2_bounds q ltac:(lia)) as (Hd' & Hl & Hu).
  destruct (Z_le_gt_dec (Zdigits2 q) d) as [H|H]; [exact H|].
  assert (2 ^ d <= 2 ^ (Zdigits2 q - 1)) by (apply Z.pow_le_mono_r; lia). lia.
Qed.

Lemma rne_0 M : rne M 0 = M.
Proof.
  unfold rne. rewrite Z.pow_0_r, Z.div_1_r, Z.mod_1_r. reflexivity.
Qed.

Lemma shr_fexp_exact_shift M E :
  0 <= M -> E < fexp64 (Zdigits2 M + E) ->
  exists mrs,
    shr_fexp prec emax M E loc_Exact = (mrs, fexp64 (Zdigits2 M + E))
    /\ shifted M (fexp64 (Zdigits2 M + E) - E) mrs.
Proof.
  intros HM Hlt. unfold shr_fexp, shr.
  destruct (fexp64 (Zdigits2 M + E) - E) as [|p|p] eqn:Hn; try lia.
  eexists. split.
  - f_equal. lia.
  - cbn [shr_record_of_loc]. rewrite iter_pos_nat.
    rewrite <- (positive_nat_Z p). apply shifted_iter. exact HM.
Qed.

Lemma shr_fexp_exact_noshift M E :
  fexp64 (Zdigits2 M + E) <= E ->
  shr_fexp prec emax M E loc_Exact = (Build_shr_record M false false, E).
Proof.
  intros Hle. unfold shr_fexp, shr.
  destruct (fexp64 (Zdigits2 M + E) - E) as [|p|p] eqn:Hn; try lia; reflexivity.
Qed.

(** The shape of the second, renormalising shift inside [binary_round_aux]. *)
Lemma renormalise s q t :
  0 <= q <= 2 ^ 53 -> -1074 <= t ->
  (t = -1074 \/ 2 ^ 52 <= q) ->
  (let '(mrs, e) := shr_fexp prec emax q t loc_Exact in
   match shr_m mrs with
   | Z0 => S754_zero s
   | Zpos m => if e <=? emax - prec then S754_finite s m e else S754_infinity s
   | Zneg _ => S754_nan
   end) = pack s q t.
Proof.
  intros Hq Ht Hn.
  destruct (Z.eq_dec q (2 ^ 53)) as [->|Hne].
  - unfold shr_fexp, shr. cbn [Zdigits2 digits2_pos Pos.succ].
    change (Zdigits2 (2 ^ 53)) with 54. rewrite fexp64_eq.
    replace (Z.max (54 + t - 53) (-1074) - t) with 1 by lia.
    cbn [iter_pos shr_record_of_loc shr_1 shr_m]. unfold pack.
    change (2 ^ 53 <? 2 ^ 53) with false. cbv iota.
    change (emax - prec) with 971. reflexivity.
  - rewrite shr_fexp_exact_noshift.
    + cbn [shr_m]. unfold pack. destruct q as [|p|p]; try lia; [reflexivity|].
      replace (Z.pos p <? 2 ^ 53) with true by (symmetry; apply Z.ltb_lt; lia).
      reflexivity.
    + rewrite fexp64_eq.
      assert (Hd : Zdigits2 q <= 53) by (apply Zdigits2_le; lia).
      destruct Hn as [->|Hn]; [lia|].
      assert (Zdigits2 q = 53) by (apply Zdigits2_unique; [lia|]; cbn; lia).
      lia.
Qed.

(** [binary_round_aux] on an exact, positive input that is at least as fine
    as the format: the mantissa is rounded to nearest-even at the exponent
    that the format assigns to the value, and packed. *)
Lemma binary_round_aux_exact s M E :
  0 < M -> E <= fexp64 (Zdigits2 M + E) ->
  binary_round_aux prec emax s M E loc_Exact
  = pack s (rne M (fexp64 (Zdigits2 M + E) - E)) (fexp64 (Zdigits2 M + E)).
Proof.
  intros HM HE. unfold binary_round_aux.
  destruct (Zdigits2_bounds M HM) as (Hd & Hl & Hu).
  pose proof (shr_fexp_exact_noshift M E) as Hns.
  pose proof (shr_fexp_exact_shift M E (Z.lt_le_incl _ _ HM)) as Hsh.
  remember (Zdigits2 M) as d eqn:Hdd.
  remember (fexp64 (d + E)) as t eqn:Ht.
  rewrite fexp64_eq in Ht.
  destruct (Z.eq_dec E t) as [Heq|Hne].
  - (* no shift *)
    rewrite Hns by lia.
    cbn [shr_m loc_of_shr_record round_nearest_even].
    replace (t - E) with 0 by lia. rewrite rne_0, Heq.
    assert (Hd53 : d <= 53) by lia.
    assert (M < 2 ^ 53).
    { assert (2 ^ d <= 2 ^ 53) by (apply Z.pow_le_mono_r; lia). lia. }
    apply renormalise; [lia|lia|].
    destruct (Z.eq_dec t (-1074)); [now left|right].
    assert (Hd' : d = 53) by lia. rewrite Hd' in Hl. cbn in Hl. cbn. lia.
  - destruct Hsh as (mrs & -> & Hs); [lia|].
    rewrite (shifted_rne M (t - E) mrs) by (lia || exact Hs).
    remember (t - E) as n eqn:Hn0.
    destruct (rne_bounds M n) as (_ & Hq1 & Hq2); [lia|lia|].
    assert (Hp : 0 < 2 ^ n) by (apply Z.pow_pos_nonneg; lia).
    assert (H0 : 0 <= M / 2 ^ n) by (apply Z.div_pos; lia).
    destruct (Z_le_gt_dec (-1074) (d + E - 53)) as [Hnorm|Hsub].
    + (* normal range *)
      assert (Hn : n = d - 53) by lia.
      assert (Hpow : 2 ^ d = 2 ^ 53 * 2 ^ n).
      { rewrite <- Z.pow_add_r by lia. f_equal. lia. }
      assert (Hpow' : 2 ^ (d - 1) = 2 ^ 52 * 2 ^ n).
      { rewrite <- Z.pow_add_r by lia. f_equal. lia. }
      assert (M / 2 ^ n < 2 ^ 53) by (apply Z.div_lt_upper_bound; lia).
      assert (2 ^ 52 <= M / 2 ^ n) by (apply Z.div_le_lower_bound; lia).
      apply renormalise; [lia|lia|right; lia].
    + (* subnormal range *)
      assert (Ht' : t = -1074) by lia.
      assert (M / 2 ^ n < 2 ^ 52).
      { apply Z.div_lt_upper_bound; [lia|].
        destruct (Z_le_gt_dec 0 (d - n)) as [Hdn|Hdn].
        - assert (2 ^ d = 2 ^ (d - n) * 2 ^ n).
          { rewrite <- Z.pow_add_r by lia. f_equal. lia. }
          assert (2 ^ (d - n) <= 2 ^ 52) by (apply Z.pow_le_mono_r; lia).
          nia.
        - assert (2 ^ d <= 2 ^ n) by (apply Z.pow_le_mono_r; lia).
          nia. }
      apply renormalise; [lia|lia|now left].
Qed.

(** The rounded mantissa stays in the format's range: at most [2^53], and
    normal above the smallest exponent. *)
Lemma rne_range M E :
  0 < M -> E <= fexp64 (Zdigits2 M + E) ->
  let t := fexp64 (Zdigits2 M + E) in
  0 <= rne M (t - E) <= 2 ^ 53 /\ (t = -1074 \/ 2 ^ 52 <= rne M (t - E)).
Proof.
  intros HM HE t.
  destruct (Zdigits2_bounds M HM) as (Hd & Hl & Hu).
  assert (Ht : t = Z.max (Zdigits2 M + E - 53) (-1074)) by reflexivity.
  rewrite fexp64_eq in HE.
  clearbody t. remember (Zdigits2 M) as d eqn:Hdd.
  remember (t - E) as n eqn:Hn0.
  destruct (rne_bounds M n) as (_ & Hq1 & Hq2); [lia|lia|].
  assert (Hp : 0 < 2 ^ n) by (apply Z.pow_pos_nonneg; lia).
  assert (H0 : 0 <= M / 2 ^ n) by (apply Z.div_pos; lia).
  destruct (Z_le_gt_dec (-1074) (d + E - 53)) as [Hnorm|Hsub].
  - assert (Hn : n = d - 53) by lia.
    assert (Hpow : 2 ^ d = 2 ^ 53 * 2 ^ n).
    { rewrite <- Z.pow_add_r by lia. f_equal. lia. }
    assert (Hpow' : 2 ^ (d - 1) = 2 ^ 52 * 2 ^ n).
    { rewrite <- Z.pow_add_r by lia. f_equal. lia. }
    assert (M / 2 ^ n < 2 ^ 53) by (apply Z.div_lt_upper_bound; lia).
    assert (2 ^ 52 <= M / 2 ^ n) by (apply Z.div_le_lower_bound; lia).
    lia.
  - assert (Ht' : t = -1074) by lia.
    assert (M / 2 ^ n < 2 ^ 52).
    { apply Z.div_lt_upper_bound; [lia|].
      destruct (Z_le_gt_dec 0 (d - n)) as [Hdn|Hdn].
      - assert (2 ^ d = 2 ^ (d - n) * 2 ^ n).
        { rewrite <- Z.pow_add_r by lia. f_equal. lia. }
        assert (2 ^ (d - n) <= 2 ^ 52) by (apply Z.pow_le_mono_r; lia).
        nia.
      - assert (2 ^ d <= 2 ^ n) by (apply Z.pow_le_mono_r; lia).
        nia. }
    lia.
Qed.

Lemma Pos_compare_cont_Eq p q :
  Pos.compare_cont Eq p q = (Z.pos p ?= Z.pos q).
Proof. reflexivity. Qed.

(** Packing is monotone: a smaller exponent, or the same exponent and a
    smaller mantissa, never packs to a greater float. *)
Lemma pack_le q1 t1 q2 t2 :
  0 <= q1 <= 2 ^ 53 -> 0 <= q2 <= 2 ^ 53 ->
  (t2 = -1074 \/ 2 ^ 52 <= q2) ->
  -1074 <= t1 ->
  t1 < t2 \/ (t1 = t2 /\ q1 <= q2) ->
  SFltb (pack false q2 t2) (pack false q1 t1) = false.
Proof.
  intros Hq1 Hq2 Hn2 Ht1 Hle. unfold pack.
  destruct q1 as [|p1|p1]; [|  |lia].
  { destruct q2 as [|p2|p2]; [reflexivity| |lia].
    destruct (Z.pos p2 <? 2 ^ 53);
      [destruct (t2 <=? 971)|destruct (t2 + 1 <=? 971)]; reflexivity. }
  destruct q2 as [|p2|p2]; [lia| |lia].
  assert (Hdiv : forall p, Z.pos p = 2 ^ 53 -> Z.pos (Pos.div2 p) = 2 ^ 52).
  { intros p Hp. apply Pos2Z.inj in Hp. subst p. reflexivity. }
  destruct (Z.ltb_spec (Z.pos p1) (2 ^ 53)) as [H1|H1];
    destruct (Z.ltb_spec (Z.pos p2) (2 ^ 53)) as [H2|H2].
  - destruct (Z.leb_spec t1 971), (Z.leb_spec t2 971);
      try reflexivity; try (exfalso; lia).
    unfold SFltb, SFcompare.
    destruct (Z.compare_spec t2 t1); try reflexivity; try (exfalso; lia).
    rewrite Pos_compare_cont_Eq.
    destruct (Z.compare_spec (Z.pos p2) (Z.pos p1)); try reflexivity. exfalso; lia.
  - destruct (Z.leb_spec t1 971), (Z.leb_spec (t2 + 1) 971);
      try reflexivity; try (exfalso; lia).
    unfold SFltb, SFcompare.
    destruct (Z.compare_spec (t2 + 1) t1); try reflexivity; exfalso; lia.
  - pose proof (Hdiv p1 ltac:(lia)) as Hd1.
    destruct (Z.leb_spec (t1 + 1) 971), (Z.leb_spec t2 971);
      try reflexivity; try (exfalso; lia).
    unfold SFltb, SFcompare.
    destruct (Z.compare_spec t2 (t1 + 1)); try reflexivity; try (exfalso; lia).
    rewrite Pos_compare_cont_Eq, Hd1.
    destruct (Z.compare_spec (Z.pos p2) (2 ^ 52)); try reflexivity.
    exfalso; lia.
  - pose proof (Hdiv p1 ltac:(lia)) as Hd1. pose proof (Hdiv p2 ltac:(lia)) as Hd2.
    destruct (Z.leb_spec (t1 + 1) 971), (Z.leb_spec (t2 + 1) 971);
      try reflexivity; try (exfalso; lia).
    unfold SFltb, SFcompare.
    destruct (Z.compare_spec (t2 + 1) (t1 + 1)); try reflexivity; try (exfalso; lia).
    rewrite Pos_compare_cont_Eq, Hd1, Hd2. reflexivity.
Qed.

(** Rounding is monotone: of two positive values written [M1 * 2^E1] and
    [M2 * 2^E2], the smaller never rounds to the greater float. *)
Lemma pack_rne_mono M1 E1 M2 E2 :
  0 < M1 -> 0 < M2 ->
  E1 <= E2 -> M1 < M2 * 2 ^ (E2 - E1) ->
  let t1 := fexp64 (Zdigits2 M1 + E1) in
  let t2 := fexp64 (Zdigits2 M2 + E2) in
  E1 <= t1 -> E2 <= t2 ->
  SFltb (pack false (rne M2 (t2 - E2)) t2) (pack false (rne M1 (t1 - E1)) t1) = false.
Proof.
  intros H1 H2 HE Hv t1 t2 Hs1 Hs2.
  destruct (rne_range M1 E1 H1 Hs1) as (Hr1 & Hn1).
  destruct (rne_range M2 E2 H2 Hs2) as (Hr2 & Hn2).
  fold t1 in Hr1, Hn1. fold t2 in Hr2, Hn2.
  assert (Ht1 : t1 = Z.max (Zdigits2 M1 + E1 - 53) (-1074)) by reflexivity.
  assert (Ht2 : t2 = Z.max (Zdigits2 M2 + E2 - 53) (-1074)) by reflexivity.
  clearbody t1 t2.
  destruct (Zdigits2_bounds M1 H1) as (Hd1 & Hl1 & Hu1).
  destruct (Zdigits2_bounds M2 H2) as (Hd2 & Hl2 & Hu2).
  assert (Hk : 0 < 2 ^ (E2 - E1)) by (apply Z.pow_pos_nonneg; lia).
  assert (Hdd : Zdigits2 M1 <= Zdigits2 M2 + (E2 - E1)).
  { apply Zdigits2_le; [lia|]. rewrite Z.pow_add_r by lia. nia. }
  apply pack_le; try lia.
  destruct (Z.eq_dec t1 t2) as [Heq|Hne]; [right|left; lia].
  split; [exact Heq|].
  destruct (rne_bounds M1 (t1 - E1)) as ((Hlo1 & _) & _); [lia|lia|].
  destruct (rne_bounds M2 (t2 - E2)) as ((_ & Hhi2) & _); [lia|lia|].
  assert (Hpw : 2 ^ (t1 - E1) = 2 ^ (t2 - E2) * 2 ^ (E2 - E1)).
  { rewrite <- Z.pow_add_r by lia. f_equal. lia. }
  assert (Hp2 : 0 < 2 ^ (t2 - E2)) by (apply Z.pow_pos_nonneg; lia).
  remember (rne M1 (t1 - E1)) as q1. remember (rne M2 (t2 - E2)) as q2.
  remember (2 ^ (t2 - E2)) as B. remember (2 ^ (E2 - E1)) as K.
  rewrite Hpw in Hlo1.
  destruct (Z_le_gt_dec q1 q2) as [Hle|Hgt]; [exact Hle|exfalso].
  assert (Ha : (2 * q2 + 1) * (B * K) <= (2 * q1 - 1) * (B * K)).
  { apply Z.mul_le_mono_nonneg_r; nia. }
  assert (Hb : 2 * M2 * K <= (2 * q2 + 1) * B * K).
  { apply Z.mul_le_mono_nonneg_r; lia. }
  nia.
Qed.

Lemma Zdigits2_ge M k :
  0 <= k -> 2 ^ k <= M -> k + 1 <= Zdigits2 M.
Proof.
  intros Hk HM.
  assert (Hp : 0 < 2 ^ k) by (apply Z.pow_pos_nonneg; lia).
  destruct (Zdigits2_bounds M ltac:(lia)) as (Hd & _ & Hu).
  destruct (Z_le_gt_dec (k + 1) (Zdigits2 M)) as [H|H]; [exact H|].
  assert (2 ^ Zdigits2 M <= 2 ^ k) by (apply Z.pow_le_mono_r; lia). lia.
Qed.

(** A product whose second factor has a full 53-bit mantissa is always
    shifted right by [binary_round_aux]. *)
Lemma mul_fine mx my E :
  2 ^ 52 <= Z.pos my -> E <= fexp64 (Zdigits2 (Z.pos (mx * my)) + E).
Proof.
  intros Hy. rewrite fexp64_eq.
  assert (53 <= Zdigits2 (Z.pos (mx * my))).
  { apply (Zdigits2_ge _ 52); [lia|]. rewrite Pos2Z.inj_mul. nia. }
  lia.
Qed.

Lemma SFmul_finite sx mx ex sy my ey :
  2 ^ 52 <= Z.pos my ->
  SF64mul (S754_finite sx mx ex) (S754_finite sy my ey)
  = pack (xorb sx sy)
         (rne (Z.pos (mx * my))
              (fexp64 (Zdigits2 (Z.pos (mx * my)) + (ex + ey)) - (ex + ey)))
         (fexp64 (Zdigits2 (Z.pos (mx * my)) + (ex + ey))).
Proof.
  intros Hy. unfold SF64mul, SFmul.
  apply binary_round_aux_exact; [lia|]. apply mul_fine. exact Hy.
Qed.

(** Multiplying a non-negative number by the smaller of two normal positive
    constants never gives the greater product. *)
Lemma SFmul_mono x m1 e1 m2 e2 :
  SFleb (S754_zero false) x = true ->
  2 ^ 52 <= Z.pos m1 -> 2 ^ 52 <= Z.pos m2 ->
  e1 <= e2 -> Z.pos m1 < Z.pos m2 * 2 ^ (e2 - e1) ->
  SFltb (SF64mul x (S754_finite false m2 e2)) (SF64mul x (S754_finite false m1 e1))
  = false.
Proof.
  intros Hx H1 H2 He Hm.
  destruct x as [s|s| |s m e]; try (destruct s; discriminate Hx || reflexivity).
  - discriminate Hx.
  - destruct s; [discriminate Hx|].
    rewrite !SFmul_finite by assumption. cbn [xorb].
    apply pack_rne_mono; try lia.
    + replace (e + e2 - (e + e1)) with (e2 - e1) by lia.
      rewrite !Pos2Z.inj_mul. nia.
    + apply mul_fine; assumption.
    + apply mul_fine; assumption.
Qed.

(** ** Halving *)

Lemma div_eucl_div_mod a b : Z.div_eucl a b = (a / b, a mod b).
Proof. unfold Z.div, Z.modulo. destruct (Z.div_eucl a b). reflexivity. Qed.

Lemma loc_of_shr_record_of_loc q l :
  loc_of_shr_record (shr_record_of_loc q l) = l.
Proof. destruct l as [|[| |]]; reflexivity. Qed.

Lemma shr_m_of_loc q l : shr_m (shr_record_of_loc q l) = q.
Proof. destruct l as [|[| |]]; reflexivity. Qed.

(** [binary_round_aux] on a mantissa that already sits at the smallest
    exponent: no shift, only the rounding that the location asks for. *)
Lemma binary_round_aux_subnormal s q l :
  0 <= q < 2 ^ 53 ->
  binary_round_aux prec emax s q (-1074) l
  = pack s (round_nearest_even q l) (-1074).
Proof.
  intros Hq. unfold binary_round_aux.
  assert (Hd : Zdigits2 q <= 53) by (apply Zdigits2_le; lia).
  assert (Hs : shr_fexp prec emax q (-1074) l = (shr_record_of_loc q l, -1074)).
  { unfold shr_fexp, shr. rewrite fexp64_eq.
    replace (Z.max (Zdigits2 q + -1074 - 53) (-1074) - -1074) with 0 by lia.
    reflexivity. }
  rewrite Hs, shr_m_of_loc, loc_of_shr_record_of_loc.
  apply renormalise; [|lia|now left].
  destruct l as [|[| |]]; cbn [round_nearest_even]; try lia.
  destruct (Z.even q); lia.
Qed.

Lemma rne_exact q n : 0 <= n -> rne (q * 2 ^ n) n = q.
Proof.
  intros Hn. unfold rne.
  assert (Hp : 0 < 2 ^ n) by (apply Z.pow_pos_nonneg; lia).
  rewrite Z.div_mul, Z.mod_mul by lia.
  replace (2 * 0 ?= 2 ^ n) with Lt by (symmetry; apply Z.compare_lt_iff; lia).
  reflexivity.
Qed.

Lemma valid_finite_cases m e :
  valid_binary (S754_finite false m e) = true ->
  e <= 971 /\
  ((Zdigits2 (Z.pos m) = 53 /\ -1074 <= e) \/ (Zdigits2 (Z.pos m) <= 53 /\ e = -1074)).
Proof.
  cbn [valid_binary]. unfold bounded, canonical_mantissa.
  intros H. apply andb_true_iff in H. destruct H as [Hc He].
  apply Z.eqb_eq in Hc. apply Z.leb_le in He. rewrite fexp64_eq in Hc.
  change (emax - prec) with 971 in He. cbn [Zdigits2]. lia.
Qed.

Lemma SFdiv_two_finite s m e :
  valid_binary (S754_finite false m e) = true ->
  SF64div (S754_finite s m e) SFtwo = SF64mul (S754_finite s m e) SFhalf.
Proof.
  intros Hv. destruct (valid_finite_cases m e Hv) as (He & Hc).
  unfold SFhalf. rewrite SFmul_finite by (cbn; lia).
  destruct (Zdigits2_bounds (Z.pos m) ltac:(lia)) as (Hd0 & Hl & Hu).
  assert (Hdig : Zdigits2 (Z.pos (m * 4503599627370496)) = Zdigits2 (Z.pos m) + 52).
  { apply Zdigits2_unique; [lia|]. rewrite Pos2Z.inj_mul.
    change (Z.pos 4503599627370496) with (2 ^ 52).
    replace (Zdigits2 (Z.pos m) + 52 - 1) with (Zdigits2 (Z.pos m) - 1 + 52) by lia.
    rewrite !Z.pow_add_r by lia. nia. }
  rewrite Hdig, fexp64_eq.
  rewrite Pos2Z.inj_mul. change (Z.pos 4503599627370496) with (2 ^ 52).
  unfold SF64div, SFdiv, SFtwo, SFdiv_core_binary.
  change (Zdigits2 (Z.pos 4503599627370496)) with 53.
  rewrite fexp64_eq. change (Z.pos 4503599627370496) with (2 ^ 52).
  remember (Zdigits2 (Z.pos m)) as d eqn:Hd.
  destruct (Z_le_gt_dec (-1073) e) as [Hbig|Hsmall].
  - (* the halved value is representable *)
    assert (Hd53 : d = 53) by lia.
    replace (Z.max (d + 52 + (e + -53) - 53) (-1074)) with (e - 1) by lia.
    replace (e - 1 - (e + -53)) with 52 by lia. rewrite rne_exact by lia.
    destruct (Z.eq_dec e (-1073)) as [->|Hne].
    + replace (Z.min (Z.max (d + -1073 - (53 + -51) - 53) (-1074)) (-1073 - -51))
        with (-1074) by lia.
      change (-1073 - -51 - -1074) with 52. cbv iota.
      rewrite Z.shiftl_mul_pow2 by lia. rewrite div_eucl_div_mod.
      rewrite Z.div_mul, Z.mod_mul by lia.
      change (new_location (2 ^ 52) 0) with loc_Exact.
      rewrite binary_round_aux_exact; [|lia|rewrite <- Hd, fexp64_eq; lia].
      rewrite <- Hd, fexp64_eq.
      replace (Z.max (d + -1074 - 53) (-1074)) with (-1074) by lia.
      change (-1074 - -1074) with 0. rewrite rne_0. reflexivity.
    + replace (Z.min (Z.max (d + e - (53 + -51) - 53) (-1074)) (e - -51))
        with (e - 2) by lia.
      replace (e - -51 - (e - 2)) with 53 by lia. cbv iota.
      rewrite Z.shiftl_mul_pow2 by lia. rewrite div_eucl_div_mod.
      replace (Z.pos m * 2 ^ 53) with (2 * Z.pos m * 2 ^ 52) by lia.
      rewrite Z.div_mul, Z.mod_mul by lia.
      change (new_location (2 ^ 52) 0) with loc_Exact.
      assert (Hd2 : Zdigits2 (2 * Z.pos m) = 54).
      { apply Zdigits2_unique; [lia|]. rewrite Hd53 in Hl, Hu. cbn in Hl, Hu |- *. lia. }
      rewrite binary_round_aux_exact; [|lia|rewrite Hd2, fexp64_eq; lia].
      rewrite Hd2, fexp64_eq.
      replace (Z.max (54 + (e - 2) - 53) (-1074)) with (e - 1) by lia.
      replace (e - 1 - (e - 2)) with 1 by lia.
      replace (2 * Z.pos m) with (Z.pos m * 2 ^ 1) by lia.
      rewrite rne_exact by lia. reflexivity.
  - (* the operand sits at the smallest exponent: the last bit is rounded *)
    assert (He' : e = -1074) by lia. subst e.
    replace (Z.max (d + 52 + (-1074 + -53) - 53) (-1074)) with (-1074) by lia.
    change (-1074 - (-1074 + -53)) with 53.
    replace (Z.min (Z.max (d + -1074 - (53 + -51) - 53) (-1074)) (-1074 - -51))
      with (-1074) by lia.
    change (-1074 - -51 - -1074) with 51. cbv iota.
    rewrite Z.shiftl_mul_pow2 by lia. rewrite div_eucl_div_mod.
    pose proof (Z.div_mod (Z.pos m) 2 ltac:(lia)) as Hdm.
    pose proof (Z.mod_pos_bound (Z.pos m) 2 ltac:(lia)) as Hmb.
    assert (Hm53 : Z.pos m < 2 ^ 53).
    { assert (2 ^ d <= 2 ^ 53) by (apply Z.pow_le_mono_r; lia). lia. }
    assert (Hq : Z.pos m * 2 ^ 51 / 2 ^ 52 = Z.pos m / 2).
    { symmetry. apply (Z.div_unique _ _ _ (Z.pos m mod 2 * 2 ^ 51)); lia. }
    assert (Hr : (Z.pos m * 2 ^ 51) mod 2 ^ 52 = Z.pos m mod 2 * 2 ^ 51).
    { symmetry. apply (Z.mod_unique _ _ (Z.pos m / 2)); lia. }
    rewrite Hq, Hr.
    rewrite binary_round_aux_subnormal by lia.
    f_equal. unfold rne.
    assert (Hq' : Z.pos m * 2 ^ 52 / 2 ^ 53 = Z.pos m / 2).
    { symmetry. apply (Z.div_unique _ _ _ (Z.pos m mod 2 * 2 ^ 52)); lia. }
    assert (Hr' : (Z.pos m * 2 ^ 52) mod 2 ^ 53 = Z.pos m mod 2 * 2 ^ 52).
    { symmetry. apply (Z.mod_unique _ _ (Z.pos m / 2)); lia. }
    rewrite Hq', Hr'.
    destruct (Z.eq_dec (Z.pos m mod 2) 0) as [H0|H1].
    + rewrite H0. reflexivity.
    + assert (H1' : Z.pos m mod 2 = 1) by lia. rewrite H1'. reflexivity.
Qed.

End Rounding.

(** ** Primitive floats *)


Lemma Prim2SF_inj (x y : float) : Prim2SF x = Prim2SF y -> x = y.
Proof.
  intros H. rewrite <- (SF2Prim_Prim2SF x), <- (SF2Prim_Prim2SF y), H. reflexivity.
Qed.

(** Dividing by two and multiplying by one half are the same operation. *)
Lemma div_two (h : float) : h / 2 = h * 0.5.
Proof.
  apply Prim2SF_inj. rewrite div_spec, mul_spec.
  change (Prim2SF 2) with SFtwo. change (Prim2SF 0.5) with SFhalf.
  pose proof (Prim2SF_valid h) as Hv.
  destruct (Prim2SF h) as [s|s| |s m e]; try reflexivity.
  apply SFdiv_two_finite. exact Hv.
Qed.

Lemma nonneg_SF (h : float) :
  (0 <=? h) = true -> SFleb (S754_zero false) (Prim2SF h) = true.
Proof. intros H. rewrite leb_spec in H. exact H. Qed.

Lemma mul_const_mono (h c1 c2 : float) m1 e1 m2 e2 :
  Prim2SF c1 = S754_finite false m1 e1 ->
  Prim2SF c2 = S754_finite false m2 e2 ->
  (2 ^ 52 <= Z.pos m1)%Z -> (2 ^ 52 <= Z.pos m2)%Z ->
  (e1 <= e2)%Z -> (Z.pos m1 < Z.pos m2 * 2 ^ (e2 - e1))%Z ->
  (0 <=? h) = true ->
  (h * c2 <? h * c1) = false.
Proof.
  intros H1 H2 Hm1 Hm2 He Hlt Hh.
  rewrite ltb_spec, !mul_spec, H1, H2.
  apply SFmul_mono; try assumption. apply nonneg_SF. exact Hh.
Qed.

Ltac const_mono :=
  match goal with
  | |- (?h * ?c2 <? ?h * ?c1) = false =>
      apply (mul_const_mono h c1 c2 _ _ _ _ eq_refl eq_refl);
      [vm_compute; discriminate | vm_compute; discriminate
       | vm_compute; discriminate | vm_compute; reflexivity | assumption]
  end.


(** ** Comparisons *)

Lemma SFcompare_antisym x y :
  SFcompare y x = option_map CompOpp (SFcompare x y).
Proof.
  destruct x as [s1|s1| |s1 m1 e1], y as [s2|s2| |s2 m2 e2];
    try (destruct s1; try destruct s2; reflexivity);
    try (destruct s2; reflexivity); try reflexivity.
  cbn [SFcompare option_map].
  assert (Hp : Pos.compare_cont Eq m2 m1 = CompOpp (Pos.compare_cont Eq m1 m2)).
  { rewrite (Pos.compare_cont_antisym m1 m2 Eq). reflexivity. }
  rewrite (Z.compare_antisym e1 e2), Hp.
  destruct s1, s2; try reflexivity; f_equal;
    destruct (e1 ?= e2)%Z; cbn [CompOpp]; try reflexivity;
    rewrite ?CompOpp_involutive; reflexivity.
Qed.

Lemma SFcompare_refl x : SFcompare x x = Some Eq \/ SFcompare x x = None.
Proof.
  destruct x as [s|s| |s m e]; cbn [SFcompare]; auto.
  - destruct s; auto.
  - rewrite Z.compare_refl, Pos.compare_cont_refl. destruct s; auto.
Qed.

Lemma SFltb_irrefl x : SFltb x x = false.
Proof. unfold SFltb. destruct (SFcompare_refl x) as [-> | ->]; reflexivity. Qed.

Lemma SFcompare_None x y :
  SFcompare x y = None -> x = S754_nan \/ y = S754_nan.
Proof.
  destruct x as [s1|s1| |s1 m1 e1], y as [s2|s2| |s2 m2 e2]; cbn [SFcompare];
    auto; discriminate.
Qed.

Lemma SFltb_false_leb x y :
  x <> S754_nan -> y <> S754_nan -> SFltb x y = false -> SFleb y x = true.
Proof.
  intros Hx Hy. unfold SFltb, SFleb. rewrite (SFcompare_antisym x y).
  destruct (SFcompare x y) as [[| |]|] eqn:Hc; cbn; try reflexivity; try discriminate.
  destruct (SFcompare_None _ _ Hc); contradiction.
Qed.

Lemma SFltb_true_notnan x y :
  SFltb x y = true -> x <> S754_nan /\ y <> S754_nan.
Proof.
  unfold SFltb. destruct x as [s1|s1| |s1 m1 e1], y as [s2|s2| |s2 m2 e2];
    cbn [SFcompare]; try discriminate; split; discriminate.
Qed.

Lemma pack_notnan s q t : (0 <= q)%Z -> pack s q t <> S754_nan.
Proof.
  intros Hq. unfold pack. destruct q as [|p|p]; [discriminate| |lia].
  destruct (Z.pos p <? 2 ^ 53)%Z;
    [destruct (t <=? 971)%Z|destruct (t + 1 <=? 971)%Z]; discriminate.
Qed.

(** A product with a normal constant is a number whenever the other factor
    is, and only then. *)
Lemma SFmul_const_notnan x s m e :
  (2 ^ 52 <= Z.pos m)%Z ->
  (SF64mul x (S754_finite s m e) <> S754_nan <-> x <> S754_nan).
Proof.
  intros Hm. destruct x as [sx|sx| |sx mx ex].
  - split; intros; discriminate.
  - split; intros; discriminate.
  - cbn. tauto.
  - split; [discriminate|intros _].
    rewrite SFmul_finite by exact Hm. apply pack_notnan.
    apply rne_range; [lia|]. apply mul_fine. exact Hm.
Qed.

Lemma ltb_irrefl (x : float) : (x <? x) = false.
Proof. rewrite ltb_spec. apply SFltb_irrefl. Qed.

(** Against a midpoint [h / 2], "not below" is "at or above" as soon as the
    pointer is known to be comparable with a threshold [h * c]. *)
Lemma midpoint_trichotomy (y h c : float) s m e :
  Prim2SF c = S754_finite s m e -> (2 ^ 52 <= Z.pos m)%Z ->
  (y <? h * c) = true \/ (h * c <? y) = true ->
  ((y <? h / 2) = false -> (h / 2 <=? y) = true)
  /\ ((h / 2 <? y) = false -> (y <=? h / 2) = true).
Proof.
  intros Hc Hm Hcmp. rewrite div_two.
  rewrite !ltb_spec, !leb_spec, !mul_spec in *. rewrite Hc in Hcmp.
  change (Prim2SF 0.5) with SFhalf.
  assert (Hn : Prim2SF y <> S754_nan /\ Prim2SF h <> S754_nan).
  { destruct Hcmp as [H|H]; apply SFltb_true_notnan in H; destruct H as [H1 H2];
      (split; [assumption|]); eapply SFmul_const_notnan; eassumption. }
  destruct Hn as [Hy Hh].
  assert (Hhalf : SF64mul (Prim2SF h) SFhalf <> S754_nan).
  { apply SFmul_const_notnan; [cbn; lia|exact Hh]. }
  split; intros H; apply SFltb_false_leb; assumption.
Qed.

(** ** Binary64 order *)

Section Ordering.
Local Open Scope Z_scope.

Lemma SFltb_key x y :
  SFltb x y = true <->
  match SFkey x, SFkey y with
  | Some a, Some b => key_lt a b
  | _, _ => False
  end.
Proof.
  unfold SFltb.
  destruct x as [s1|s1| |s1 m1 e1], y as [s2|s2| |s2 m2 e2];
    try destruct s1; try destruct s2; cbn [SFcompare SFkey key_lt];
    try (split; [discriminate|lia]); try (split; [intros _; lia|reflexivity]);
    try (split; [discriminate|tauto]).
  - rewrite Pos_compare_cont_Eq.
    destruct (Z.compare_spec e1 e2); [destruct (Z.compare_spec (Z.pos m1) (Z.pos m2))| |];
      cbn [CompOpp]; split; try discriminate; try reflexivity; lia.
  - rewrite Pos_compare_cont_Eq.
    destruct (Z.compare_spec e1 e2); [destruct (Z.compare_spec (Z.pos m1) (Z.pos m2))| |];
      split; try discriminate; try reflexivity; lia.
Qed.

Lemma SFkey_notnan x : x <> S754_nan -> exists a, SFkey x = Some a.
Proof.
  destruct x as [s|s| |s m e]; try destruct s; cbn; eauto. congruence.
Qed.

Lemma key_lt_total a b : key_lt a b \/ a = b \/ key_lt b a.
Proof.
  destruct a as [[a1 a2] a3], b as [[b1 b2] b3]. unfold key_lt.
  destruct (Z.lt_trichotomy a1 b1) as [?|[?|?]]; [lia| |lia].
  destruct (Z.lt_trichotomy a2 b2) as [?|[?|?]]; [lia| |lia].
  destruct (Z.lt_trichotomy a3 b3) as [?|[?|?]]; [lia| |lia].
  right; left. congruence.
Qed.

Lemma key_lt_trans a b c : key_lt a b -> key_lt b c -> key_lt a c.
Proof.
  destruct a as [[a1 a2] a3], b as [[b1 b2] b3], c as [[c1 c2] c3].
  unfold key_lt. lia.
Qed.

Lemma SFltb_trans x y z :
  SFltb x y = true -> SFltb y z = true -> SFltb x z = true.
Proof.
  rewrite !SFltb_key.
  destruct (SFkey x), (SFkey y), (SFkey z); try tauto. apply key_lt_trans.
Qed.

(** [x < y] and [y <= z] give [x < z], where [y <= z] is "not [z < y]" for a
    [z] that is a number. *)
Lemma SFltb_nlt_trans x y z :
  SFltb x y = true -> SFltb z y = false -> z <> S754_nan -> SFltb x z = true.
Proof.
  intros Hxy Hzy Hz. destruct (SFkey_notnan z Hz) as (c & Hc).
  assert (Hn : ~ SFltb z y = true) by congruence.
  rewrite SFltb_key in Hxy, Hn |- *. rewrite Hc in *.
  destruct (SFkey x) as [a|]; [|tauto]. destruct (SFkey y) as [b|]; [|tauto].
  destruct (key_lt_total b c) as [H|[H|H]].
  - eapply key_lt_trans; eassumption.
  - subst c. exact Hxy.
  - contradiction.
Qed.

(** [x <= y] and [y < z] give [x < z]. *)
Lemma SFnlt_ltb_trans x y z :
  SFltb y x = false -> x <> S754_nan -> SFltb y z = true -> SFltb x z = true.
Proof.
  intros Hyx Hx Hyz. destruct (SFkey_notnan x Hx) as (a & Ha).
  assert (Hn : ~ SFltb y x = true) by congruence.
  rewrite SFltb_key in Hyz, Hn |- *. rewrite Ha in *.
  destruct (SFkey y) as [b|]; [|tauto]. destruct (SFkey z) as [c|]; [|tauto].
  destruct (key_lt_total a b) as [H|[H|H]].
  - eapply key_lt_trans; eassumption.
  - subst b. exact Hyz.
  - contradiction.
Qed.

Lemma SFltb_asym x y : SFltb x y = true -> SFltb y x = false.
Proof.
  intros H. destruct (SFltb y x) eqn:Hyx; [|reflexivity].
  pose proof (SFltb_trans _ _ _ H Hyx) as Hxx. rewrite SFltb_irrefl in Hxx.
  discriminate.
Qed.

End Ordering.

(** A pointer below a threshold [h * c1] is below every higher threshold
    [h * c2] of a box whose size [h] is not negative. *)
Lemma below_threshold_mono (y h c1 c2 : float) m1 e1 m2 e2 :
  Prim2SF c1 = S754_finite false m1 e1 ->
  Prim2SF c2 = S754_finite false m2 e2 ->
  (2 ^ 52 <= Z.pos m1)%Z -> (2 ^ 52 <= Z.pos m2)%Z ->
  (e1 <= e2)%Z -> (Z.pos m1 < Z.pos m2 * 2 ^ (e2 - e1))%Z ->
  (0 <=? h) = true ->
  (y <? h * c1) = true -> (y <? h * c2) = true.
Proof.
  intros H1 H2 Hm1 Hm2 He Hlt Hh Hy.
  pose proof (mul_const_mono h c1 c2 _ _ _ _ H1 H2 Hm1 Hm2 He Hlt Hh) as Hmono.
  rewrite !ltb_spec, !mul_spec in *. rewrite H1 in *. rewrite H2 in *.
  apply (SFltb_nlt_trans _ _ _ Hy Hmono).
  apply SFmul_const_notnan; [exact Hm2|].
  apply SFltb_true_notnan in Hy. destruct Hy as [_ Hy].
  apply SFmul_const_notnan in Hy; assumption.
Qed.

(** A pointer above a threshold [h * c2] is above every lower threshold. *)
Lemma above_threshold_mono (y h c1 c2 : float) m1 e1 m2 e2 :
  Prim2SF c1 = S754_finite false m1 e1 ->
  Prim2SF c2 = S754_finite false m2 e2 ->
  (2 ^ 52 <= Z.pos m1)%Z -> (2 ^ 52 <= Z.pos m2)%Z ->
  (e1 <= e2)%Z -> (Z.pos m1 < Z.pos m2 * 2 ^ (e2 - e1))%Z ->
  (0 <=? h) = true ->
  (h * c2 <? y) = true -> (h * c1 <? y) = true.
Proof.
  intros H1 H2 Hm1 Hm2 He Hlt Hh Hy.
  pose proof (mul_const_mono h c1 c2 _ _ _ _ H1 H2 Hm1 Hm2 He Hlt Hh) as Hmono.
  rewrite !ltb_spec, !mul_spec in *. rewrite H1 in *. rewrite H2 in *.
  apply (SFnlt_ltb_trans _ _ _ Hmono); [|exact Hy].
  apply SFmul_const_notnan; [exact Hm1|].
  apply SFltb_true_notnan in Hy. destruct Hy as [Hy _].
  apply SFmul_const_notnan in Hy; assumption.
Qed.

Lemma ltb_asym (x y : float) : (x <? y) = true -> (y <? x) = false.
Proof. rewrite !ltb_spec. apply SFltb_asym. Qed.

Ltac side_conditions :=
  [> vm_compute; discriminate | vm_compute; discriminate
   | vm_compute; discriminate | vm_compute; reflexivity
   | assumption | assumption ].

Ltac below_mono :=
  match goal with
  | H : (?y <? ?h * ?c1) = true |- (?y <? ?h * ?c2) = true =>
      apply (below_threshold_mono y h c1 c2 _ _ _ _ eq_refl eq_refl);
      side_conditions
  end.

Ltac above_mono :=
  match goal with
  | H : (?h * ?c2 <? ?y) = true |- (?h * ?c1 <? ?y) = true =>
      apply (above_threshold_mono y h c1 c2 _ _ _ _ eq_refl eq_refl);
      side_conditions
  end.


(** ** Literals and thresholds *)

(** [1 - 0.3] is, in binary64, the very number that the literal [0.7]
    denotes: the subtraction is a tie that rounds to even. *)
Lemma one_minus_edgeZone : 1 - edgeZone = 0.7.
Proof. reflexivity. Qed.

Lemma edgeZone_bits : Prim2SF edgeZone = S754_finite false 5404319552844595 (-54).
Proof. reflexivity. Qed.

Lemma position_at_unfold x y width height :
  position_at x y width height =
  if y <? height * 0.3 then PTop
  else if height * 0.7 <? y then PBottom
  else if x <? width * 0.3 then PLeft
  else if width * 0.7 <? x then PRight
  else PCenter.
Proof. unfold position_at. rewrite one_minus_edgeZone. reflexivity. Qed.

(** ** Running the handlers *)

(** On a mounted item the palette / row-member path of [hover] only stores
    the classified position. *)
Lemma hover_foreign_mounted P box monitor w :
  isPaletteComponent (dragItem w) || isHorizontalComponent (dragItem w) = true ->
  hover P (Some box) monitor w =
  Returned tt {| hoverPosition :=
                   match getClientOffset monitor with
                   | Some clientOffset => classify clientOffset box
                   | None => PNone
                   end;
                 dragItem := dragItem w;
                 calls := calls w |}.
Proof.
  intros H. unfold hover, bind, getItem. cbn. rewrite H. cbn.
  destruct (getClientOffset monitor); reflexivity.
Qed.

(** An unmounted item ignores the tick altogether. *)
Lemma hover_unmounted P monitor w :
  hover P None monitor w = Returned tt w.
Proof. reflexivity. Qed.

(** [hover] of the dragged item over itself. *)
Lemma hover_self_mounted P box monitor w :
  isPaletteComponent (dragItem w) || isHorizontalComponent (dragItem w) = false ->
  (item_index (dragItem w) =? index P) = true ->
  hover P (Some box) monitor w =
  Returned tt {| hoverPosition := PNone;
                 dragItem := dragItem w;
                 calls := calls w |}.
Proof.
  intros H He. unfold hover, bind, getItem. cbn. rewrite H, He. reflexivity.
Qed.

(** [hover] on the reorder path, pointer known. *)
Lemma hover_reorder_mounted P box clientOffset w :
  isPaletteComponent (dragItem w) || isHorizontalComponent (dragItem w) = false ->
  (item_index (dragItem w) =? index P) = false ->
  hover P (Some box) {| getClientOffset := Some clientOffset |} w =
  let position := classify clientOffset box in
  let y := coord_y clientOffset - rect_top box in
  if commits (item_index (dragItem w)) (index P) y (rect_height box) position
  then Returned tt
         {| hoverPosition := position;
            dragItem := {| item_type := item_type (dragItem w);
                           item_id := item_id (dragItem w);
                           item_index := index P;
                           item_component := item_component (dragItem w) |};
            calls := calls w ++ [MoveComponent (item_index (dragItem w)) (index P)] |}
  else Returned tt {| hoverPosition := position;
                      dragItem := dragItem w;
                      calls := calls w |}.
Proof.
  intros H He. unfold hover, bind, getItem, commits. cbn. rewrite H, He. cbn.
  destruct (isTopOrBottom (classify clientOffset box)); cbn; [|reflexivity].
  destruct ((item_index (dragItem w) <? index P)
            && (coord_y clientOffset - rect_top box <? rect_height box / 2));
    cbn; [reflexivity|].
  destruct ((index P <? item_index (dragItem w))
            && (rect_height box / 2 <? coord_y clientOffset - rect_top box));
    reflexivity.
Qed.

Lemma reorderOrigin_not_foreign item d :
  reorderOrigin item d ->
  isPaletteComponent item || isHorizontalComponent item = false.
Proof.
  intros [Hc Hh]. unfold isPaletteComponent. rewrite Hc, Hh. reflexivity.
Qed.

(** [drop] of a reorder-origin payload. *)
Lemma drop_reorder P w d :
  reorderOrigin (dragItem w) d ->
  drop P w =
  let w0 := {| hoverPosition := PNone; dragItem := dragItem w; calls := calls w |} in
  if isLeftOrRight (hoverPosition w)
  then requestRow P d (hoverPosition w) w0
  else Returned tt w0.
Proof.
  intros [Hc Hh]. unfold drop, bind, getItem, getHoverPosition, setHoverPosition.
  cbn. unfold isPaletteComponent. rewrite Hc, Hh. cbn.
  destruct (isLeftOrRight (hoverPosition w)); reflexivity.
Qed.

(** [drop] of any other payload only clears the cached position. *)
Lemma drop_foreign P w :
  isPaletteComponent (dragItem w) || isHorizontalComponent (dragItem w) = true
  \/ item_component (dragItem w) = None ->
  drop P w =
  Returned tt {| hoverPosition := PNone; dragItem := dragItem w; calls := calls w |}.
Proof.
  intros H. unfold drop, bind, getItem, getHoverPosition, setHoverPosition. cbn.
  destruct (isPaletteComponent (dragItem w)) eqn:Hp; [reflexivity|].
  destruct (isHorizontalComponent (dragItem w)) eqn:Hh; [reflexivity|].
  destruct H as [H|H]; [discriminate|]. rewrite H. reflexivity.
Qed.

(** The row request, by the case of the parent lookup and of the callbacks
    supplied. *)
Lemma requestRow_cases P d pos w :
  requestRow P d pos w =
  Returned tt
    {| hoverPosition := hoverPosition w;
       dragItem := dragItem w;
       calls := calls w ++
                match findParentRowLayout P (component P), onAddToRowLayout P with
                | Some R, true => [AddToRowLayout d R pos]
                | _, _ => if onCreateRowLayout P
                          then [CreateRowLayout d (component P) pos]
                          else []
                end |}.
Proof.
  unfold requestRow, call_onAddToRowLayout, call_onCreateRowLayout, invoke, ret.
  destruct (findParentRowLayout P (component P)) as [R|];
    destruct (onAddToRowLayout P); destruct (onCreateRowLayout P);
    try reflexivity; rewrite app_nil_r; destruct w; reflexivity.
Qed.

(** ** Parent lookup *)

Lemma findParentRowLayout_in_Some comps target R :
  findParentRowLayout_in comps target = Some R ->
  In R comps /\ comp_type R = "horizontal_layout"
  /\ exists children, comp_children R = Some children
                      /\ hasChild target children = true.
Proof.
  induction comps as [|comp rest IH]; cbn; [discriminate|].
  destruct (String.eqb_spec (comp_type comp) "horizontal_layout") as [Ht|Ht].
  - destruct (comp_children comp) as [children|] eqn:Hc.
    + destruct (hasChild target children) eqn:Hh.
      * intros [= <-]. split; [now left|]. split; [exact Ht|]. now exists children.
      * intros H. destruct (IH H) as (Hin & Hrest). split; [now right|exact Hrest].
    + intros H. destruct (IH H) as (Hin & Hrest). split; [now right|exact Hrest].
  - intros H. destruct (IH H) as (Hin & Hrest). split; [now right|exact Hrest].
Qed.

Lemma findParentRowLayout_in_None comps target :
  findParentRowLayout_in comps target = None <->
  (forall comp children,
      In comp comps -> comp_type comp = "horizontal_layout" ->
      comp_children comp = Some children -> hasChild target children = false).
Proof.
  induction comps as [|comp rest IH]; cbn.
  - split; [intros _ ? ? []|reflexivity].
  - destruct (String.eqb_spec (comp_type comp) "horizontal_layout") as [Ht|Ht].
    + destruct (comp_children comp) as [children|] eqn:Hc.
      * destruct (hasChild target children) eqn:Hh.
        -- split; [discriminate|]. intros H.
           specialize (H comp children (or_introl eq_refl) Ht Hc). congruence.
        -- rewrite IH. split.
           ++ intros H c ch [<-|Hin] Hty Hch; [congruence|eauto].
           ++ intros H c ch Hin. apply H. now right.
      * rewrite IH. split.
        -- intros H c ch [<-|Hin] Hty Hch; [congruence|eauto].
        -- intros H c ch Hin. apply H. now right.
    + rewrite IH. split.
      * intros H c ch [<-|Hin] Hty Hch; [congruence|eauto].
      * intros H c ch Hin. apply H. now right.
Qed.

(** ** Sequences of events *)

Lemma run_app P evs1 evs2 w :
  run P (evs1 ++ evs2) w = (run P evs1 ;;; run P evs2) w.
Proof.
  revert w. induction evs1 as [|ev evs1 IH]; intros w; cbn.
  - reflexivity.
  - unfold bind in *. destruct (dispatch P ev w) as [[] w1|e w1].
    + apply IH.
    + reflexivity.
Qed.

Lemma run_self_hovers P ticks w d :
  reorderOrigin (dragItem w) d ->
  (item_index (dragItem w) =? index P) = true ->
  run P (hoverTicks ticks) w =
  Returned tt {| hoverPosition := if anyMounted ticks then PNone else hoverPosition w;
                 dragItem := dragItem w;
                 calls := calls w |}.
Proof.
  revert w. induction ticks as [|[refCurrent monitor] ticks IH]; intros w Hr He.
  - destruct w; reflexivity.
  - cbn [hoverTicks map run dispatch fst snd anyMounted existsb].
    unfold bind. destruct refCurrent as [box|].
    + rewrite (hover_self_mounted P box monitor w)
        by (try apply (reorderOrigin_not_foreign _ d); assumption).
      fold (hoverTicks ticks). rewrite IH by assumption.
      cbn. destruct (anyMounted ticks); reflexivity.
    + rewrite hover_unmounted. fold (hoverTicks ticks).
      rewrite IH by assumption. reflexivity.
Qed.

(** * The claims *)

(** C1.  For every pointer position and bounding box the classifier is the
    first-match cascade of the specification on the box-local coordinates:
    [y < height*0.3] gives top, else [y > height*0.7] bottom, else
    [x < width*0.3] left, else [x > width*0.7] right, else centre; this is
    the position that [hover] stores on both of its paths; and on the box
    [{0, 0, 100, 100}] the pointer [(50, 10)] is classified top. *)
Theorem classify_first_match_wins :
  (forall clientOffset box, classify clientOffset box = classify_spec clientOffset box)
  /\ (forall P box clientOffset w,
         isPaletteComponent (dragItem w) || isHorizontalComponent (dragItem w)
         || negb (item_index (dragItem w) =? index P) = true ->
         hoverPosition
           (world_of (hover P (Some box) {| getClientOffset := Some clientOffset |} w))
         = classify_spec clientOffset box)
  /\ classify {| coord_x := 50; coord_y := 10 |} box100 = PTop.
Proof.
  assert (Hc : forall clientOffset box,
             classify clientOffset box = classify_spec clientOffset box).
  { intros. unfold classify. rewrite position_at_unfold. reflexivity. }
  split; [exact Hc|]. split; [|reflexivity].
  intros P box clientOffset w H. rewrite <- Hc.
  destruct (isPaletteComponent (dragItem w) || isHorizontalComponent (dragItem w))
    eqn:Hf.
  - rewrite hover_foreign_mounted by exact Hf. reflexivity.
  - cbn in H. apply negb_true_iff in H.
    rewrite hover_reorder_mounted by assumption. cbv zeta.
    destruct (commits _ _ _ _ _); reflexivity.
Qed.

Lemma classify_first_match_wins_witness :
  hoverPosition
    (world_of (hover {| component := nodeB; index := 5; onCreateRowLayout := true;
                        onAddToRowLayout := true; allComponents := [nodeA; nodeB] |}
                     (Some box100) (pointer 50 10) (world0 (paletteItem "text_input") PNone)))
  = classify_spec {| coord_x := 50; coord_y := 10 |} box100.
Proof.
  apply (proj1 (proj2 classify_first_match_wins)). reflexivity.
Defined.

(** C5.  A palette-origin drop (a type string, no component) and a
    row-member-origin drop (type ['horizontal-component'] with a component)
    invoke none of the callbacks: [drop] returns having only cleared the
    cached position, and on such payloads [hover] only stores the position
    it computed. *)
Theorem foreign_drop_delegates P w :
  (item_component (dragItem w) = None /\ (exists t, item_type (dragItem w) = Some t))
  \/ (item_type (dragItem w) = Some "horizontal-component"
      /\ exists c, item_component (dragItem w) = Some c) ->
  (exists w', drop P w = Returned tt w'
              /\ calls w' = calls w /\ dragItem w' = dragItem w)
  /\ (isPaletteComponent (dragItem w) || isHorizontalComponent (dragItem w) = true ->
      forall refCurrent monitor,
      exists w', hover P refCurrent monitor w = Returned tt w'
                 /\ calls w' = calls w /\ dragItem w' = dragItem w).
Proof.
  intros H. split.
  - rewrite drop_foreign; [eexists; repeat split|].
    destruct H as [[Hc _]|[Ht [c Hc]]].
    + now right.
    + left. unfold isHorizontalComponent. rewrite Ht, Hc. cbn. apply orb_true_r.
  - intros Hf [box|] monitor.
    + rewrite hover_foreign_mounted by exact Hf. eexists. repeat split.
    + rewrite hover_unmounted. eexists. repeat split.
Qed.

Lemma foreign_drop_delegates_witness :
  exists w', drop {| component := nodeB; index := 1; onCreateRowLayout := true;
                     onAddToRowLayout := true; allComponents := [nodeA; nodeB] |}
                  (world0 (paletteItem "text_input") PLeft) = Returned tt w'
             /\ calls w' = [] /\ dragItem w' = paletteItem "text_input".
Proof.
  apply (foreign_drop_delegates
           {| component := nodeB; index := 1; onCreateRowLayout := true;
              onAddToRowLayout := true; allComponents := [nodeA; nodeB] |}
           (world0 (paletteItem "text_input") PLeft)).
  left. split; [reflexivity|]. exists "text_input". reflexivity.
Defined.

(** C6.  A hover tick without a client offset raises no error, invokes no
    callback and leaves the payload alone; on a mounted item the position it
    stores is none, on either path of the handler (an item that is not
    mounted skips the tick before it looks at the pointer). *)
Theorem hover_without_client_offset P refCurrent w :
  exists w',
    hover P refCurrent {| getClientOffset := None |} w = Returned tt w'
    /\ calls w' = calls w
    /\ dragItem w' = dragItem w
    /\ hoverPosition w' = match refCurrent with
                          | Some _ => PNone
                          | None => hoverPosition w
                          end.
Proof.
  destruct refCurrent as [box|].
  - unfold hover, bind, getItem. cbn.
    destruct (isPaletteComponent (dragItem w) || isHorizontalComponent (dragItem w)).
    + cbn. eexists. repeat split.
    + destruct (item_index (dragItem w) =? index P); cbn; eexists; repeat split.
  - rewrite hover_unmounted. eexists. repeat split.
Qed.

(** C8.  In the left/right branch of a reorder-origin drop, when the target
    has a parent row layout and [onAddToRowLayout] is not supplied, the
    handler falls through to the create-row branch: it calls
    [onCreateRowLayout (dragged, target, side)] (whenever that callback is
    supplied) although the target already sits in a row. *)
Theorem drop_falls_through_to_create_row P w d R :
  reorderOrigin (dragItem w) d ->
  isLeftOrRight (hoverPosition w) = true ->
  findParentRowLayout P (component P) = Some R ->
  onAddToRowLayout P = false ->
  exists w',
    drop P w = Returned tt w'
    /\ calls w' = calls w ++ (if onCreateRowLayout P
                              then [CreateRowLayout d (component P) (hoverPosition w)]
                              else []).
Proof.
  intros Hr Hz HR Ha. rewrite (drop_reorder P w d Hr). cbv zeta. rewrite Hz.
  rewrite requestRow_cases. cbn. rewrite HR, Ha. eexists. split; reflexivity.
Qed.

Lemma drop_falls_through_to_create_row_witness :
  exists w',
    drop {| component := nodeB; index := 1; onCreateRowLayout := true;
            onAddToRowLayout := false; allComponents := [nodeA; rowR] |}
         (world0 (reorderItem nodeA 0) PRight) = Returned tt w'
    /\ calls w' = [CreateRowLayout nodeA nodeB PRight].
Proof.
  apply (drop_falls_through_to_create_row
           {| component := nodeB; index := 1; onCreateRowLayout := true;
              onAddToRowLayout := false; allComponents := [nodeA; rowR] |}
           (world0 (reorderItem nodeA 0) PRight) nodeA rowR);
    try reflexivity.
  split; reflexivity.
Defined.

(** C10.  The delete zone calls [onDelete (item.id)], once, exactly when the
    payload's type is ['existing-component'] and its id is not empty; an
    empty id, or any other type, yields no call. *)
Theorem deleteZone_drop_iff (item : DeleteZone.Item) :
  (DeleteZone.drop item = [DeleteZone.id item]
   <-> DeleteZone.type item = "existing-component" /\ DeleteZone.id item <> "")
  /\ (DeleteZone.drop item = []
      <-> ~ (DeleteZone.type item = "existing-component" /\ DeleteZone.id item <> ""))
  /\ (DeleteZone.id item = "" -> DeleteZone.drop item = [])
  /\ (DeleteZone.type item <> "existing-component" -> DeleteZone.drop item = []).
Proof.
  unfold DeleteZone.drop.
  destruct (String.eqb_spec (DeleteZone.type item) "existing-component") as [Ht|Ht];
    destruct (String.eqb_spec (DeleteZone.id item) "") as [Hi|Hi]; cbn;
    repeat split; intros; try discriminate; try tauto; try reflexivity.
Qed.

Lemma deleteZone_drop_iff_witness :
  DeleteZone.drop {| DeleteZone.type := "existing-component"; DeleteZone.id := "";
                     DeleteZone.componentType := None |} = []
  /\ DeleteZone.drop {| DeleteZone.type := "component"; DeleteZone.id := "x1";
                        DeleteZone.componentType := None |} = [].
Proof.
  split.
  - apply (proj1 (proj2 (proj2 (deleteZone_drop_iff _)))). reflexivity.
  - apply (proj2 (proj2 (proj2 (deleteZone_drop_iff _)))). cbn. discriminate.
Defined.

(** ** No handler throws *)

(** On a mounted item a tick without a pointer stores none and does nothing
    else. *)
Lemma hover_mounted_no_offset P box w :
  exists w',
    hover P (Some box) {| getClientOffset := None |} w = Returned tt w'
    /\ calls w' = calls w
    /\ dragItem w' = dragItem w
    /\ hoverPosition w' = PNone.
Proof.
  unfold hover, bind, getItem. cbn.
  destruct (isPaletteComponent (dragItem w) || isHorizontalComponent (dragItem w)).
  - cbn. eexists. repeat split.
  - destruct (item_index (dragItem w) =? index P); cbn; eexists; repeat split.
Qed.

Lemma hover_returns P refCurrent monitor w :
  exists w', hover P refCurrent monitor w = Returned tt w'.
Proof.
  destruct refCurrent as [box|]; [|rewrite hover_unmounted; eauto].
  destruct (isPaletteComponent (dragItem w) || isHorizontalComponent (dragItem w))
    eqn:Hf.
  - rewrite hover_foreign_mounted by exact Hf. eauto.
  - destruct (item_index (dragItem w) =? index P) eqn:He.
    + rewrite hover_self_mounted by assumption. eauto.
    + destruct monitor as [[clientOffset|]].
      * rewrite hover_reorder_mounted by assumption. cbv zeta.
        destruct (commits _ _ _ _ _); eauto.
      * destruct (hover_mounted_no_offset P box w) as (w' & H & _).
        eauto.
Qed.

Lemma drop_returns P w :
  exists w', drop P w = Returned tt w' /\ hoverPosition w' = PNone.
Proof.
  destruct (isPaletteComponent (dragItem w) || isHorizontalComponent (dragItem w))
    eqn:Hf.
  - rewrite drop_foreign by now left. eauto.
  - destruct (item_component (dragItem w)) as [d|] eqn:Hc.
    + apply orb_false_iff in Hf. destruct Hf as [_ Hh].
      rewrite (drop_reorder P w d) by (split; assumption). cbv zeta.
      destruct (isLeftOrRight (hoverPosition w)); [|eauto].
      rewrite requestRow_cases. eauto.
    + rewrite drop_foreign by now right. eauto.
Qed.

Lemma dispatch_returns P ev w :
  exists w', dispatch P ev w = Returned tt w'.
Proof.
  destruct ev as [refCurrent monitor| |]; cbn.
  - apply hover_returns.
  - destruct (drop_returns P w) as (w' & H & _). eauto.
  - unfold ret. eauto.
Qed.

Lemma run_returns P evs w :
  exists w', run P evs w = Returned tt w'.
Proof.
  revert w. induction evs as [|ev evs IH]; intros w; cbn.
  - unfold ret. eauto.
  - unfold bind. destruct (dispatch_returns P ev w) as (w1 & ->). apply IH.
Qed.

(** The position that a hover tick on a mounted item stores is a function
    of the tick and of the payload: the position cached before plays no
    part. *)
Lemma hover_recomputes P box monitor w1 w2 :
  dragItem w1 = dragItem w2 ->
  hoverPosition (world_of (hover P (Some box) monitor w1))
  = hoverPosition (world_of (hover P (Some box) monitor w2)).
Proof.
  intros Hi.
  destruct (isPaletteComponent (dragItem w1) || isHorizontalComponent (dragItem w1))
    eqn:Hf.
  - rewrite !hover_foreign_mounted by (rewrite <- ?Hi; exact Hf). reflexivity.
  - destruct (item_index (dragItem w1) =? index P) eqn:He.
    + rewrite !hover_self_mounted by (rewrite <- ?Hi; assumption). reflexivity.
    + destruct monitor as [[clientOffset|]].
      * rewrite !hover_reorder_mounted by (rewrite <- ?Hi; assumption).
        cbv zeta. rewrite <- Hi.
        destruct (commits _ _ _ _ _); reflexivity.
      * destruct (hover_mounted_no_offset P box w1)
          as (w1' & -> & _ & _ & H1).
        destruct (hover_mounted_no_offset P box w2)
          as (w2' & -> & _ & _ & H2).
        cbn. congruence.
Qed.

(** C2, counterexample.  [nodeA] is dropped on the right of [nodeB], which
    sits in [rowR]; [onAddToRowLayout] is not supplied, [onCreateRowLayout]
    is: the handler asks for a new row. *)
Lemma row_request_claim_fails : ~ row_request_claim.
Proof.
  intros H.
  destruct (H (propsB true false) (world0 (reorderItem nodeA 0) PRight) nodeA)
    as [Hadd _]; [split; reflexivity|reflexivity|].
  destruct (Hadd rowR eq_refl) as (w' & Hd & Hc).
  cbv in Hd. injection Hd as <-. cbv in Hc. discriminate Hc.
Qed.

(** C2, amended.  For every left/right drop of a reorder-origin payload: if
    the lookup finds the target in a row layout [R] and [onAddToRowLayout] is
    supplied, the handler issues exactly [onAddToRowLayout (dragged, R,
    side)]; if no row layout of the canvas holds the target and
    [onCreateRowLayout] is supplied, it issues exactly [onCreateRowLayout
    (dragged, target, side)]; no [onMoveComponent] either way. *)
Theorem drop_requests_row P w d :
  reorderOrigin (dragItem w) d ->
  isLeftOrRight (hoverPosition w) = true ->
  (forall R, findParentRowLayout P (component P) = Some R ->
             onAddToRowLayout P = true ->
             exists w', drop P w = Returned tt w'
                        /\ calls w' = calls w ++ [AddToRowLayout d R (hoverPosition w)])
  /\ ((forall comp children,
          In comp (allComponents P) -> comp_type comp = "horizontal_layout" ->
          comp_children comp = Some children ->
          hasChild (component P) children = false) ->
      onCreateRowLayout P = true ->
      exists w', drop P w = Returned tt w'
                 /\ calls w' = calls w
                                 ++ [CreateRowLayout d (component P) (hoverPosition w)]).
Proof.
  intros Hr Hz. rewrite (drop_reorder P w d Hr). cbv zeta. rewrite Hz.
  rewrite requestRow_cases. cbn. split.
  - intros R HR Ha. rewrite HR, Ha. eauto.
  - intros Hn Hc. apply findParentRowLayout_in_None in Hn.
    unfold findParentRowLayout. rewrite Hn, Hc. eauto.
Qed.

Lemma drop_requests_row_witness :
  exists w', drop (propsB true true) (world0 (reorderItem nodeA 0) PRight)
             = Returned tt w'
             /\ calls w' = [AddToRowLayout nodeA rowR PRight].
Proof.
  apply (proj1 (drop_requests_row (propsB true true)
                  (world0 (reorderItem nodeA 0) PRight) nodeA
                  (conj eq_refl eq_refl) eq_refl) rowR);
    reflexivity.
Defined.

(** C4.  A reorder-origin gesture over the dragged item itself
    ([dragIndex === hoverIndex]) issues no request, whatever position was
    cached before it and wherever the pointer goes: each of its hover ticks
    stores none and returns, and the drop that follows them finds none and
    asks for nothing. *)
Theorem self_drop_no_requests P w d ticks :
  reorderOrigin (dragItem w) d ->
  (item_index (dragItem w) =? index P) = true ->
  anyMounted ticks = true ->
  (forall box monitor,
      hover P (Some box) monitor w
      = Returned tt {| hoverPosition := PNone; dragItem := dragItem w;
                       calls := calls w |})
  /\ run P (hoverTicks ticks ++ [Drop]) w
     = Returned tt {| hoverPosition := PNone; dragItem := dragItem w;
                      calls := calls w |}.
Proof.
  intros Hr He Hm. split.
  - intros box monitor. apply hover_self_mounted; [|exact He].
    exact (reorderOrigin_not_foreign _ _ Hr).
  - rewrite run_app. unfold bind at 1.
    rewrite (run_self_hovers P ticks w d Hr He), Hm.
    cbn [run dispatch]. unfold bind.
    rewrite (drop_reorder P _ d) by exact Hr. reflexivity.
Qed.

Lemma self_drop_no_requests_witness :
  run (propsB true true)
      (hoverTicks [(Some box100, pointer 10 50); (Some box100, pointer 90 50)] ++ [Drop])
      (world0 (reorderItem nodeB 1) PLeft)
  = Returned tt (world0 (reorderItem nodeB 1) PNone).
Proof.
  apply (proj2 (self_drop_no_requests (propsB true true)
                  (world0 (reorderItem nodeB 1) PLeft) nodeB
                  [(Some box100, pointer 10 50); (Some box100, pointer 90 50)]
                  (conj eq_refl eq_refl) eq_refl eq_refl)).
Defined.

(** A drop alone does not look at the indices: were a left or right position
    still cached when the dragged item is dropped on itself, [drop] would ask
    for a row made of the item and itself.  The hover tick that precedes the
    drop is what rules this out. *)
Lemma drop_on_self_with_stale_zone :
  drop (propsB true true) (world0 (reorderItem nodeB 1) PLeft)
  = Returned tt {| hoverPosition := PNone; dragItem := reorderItem nodeB 1;
                   calls := [AddToRowLayout nodeB rowR PLeft] |}.
Proof. reflexivity. Qed.

(** C7, counterexample.  [nodeA] is dragged over the left band of [nodeB]'s
    item and the pointer then leaves it: the cached position is still left. *)
Lemma zone_lifecycle_claim_fails : ~ zone_lifecycle_claim.
Proof.
  intros H.
  destruct (H (propsB true true) [Hover (Some box100) (pointer 10 50)]
              (world0 (reorderItem nodeA 0) PNone)) as (_ & _ & Hl).
  vm_compute in Hl. discriminate Hl.
Qed.

(** C7, amended.  Within a gesture the cached position is recomputed by
    every hover tick on the mounted item (the value stored does not depend on
    the value cached before) and is none after a drop; when the pointer
    leaves the item none of the component's code runs, and the cached
    position stays what the last tick made it. *)
Theorem zone_lifecycle P evs w :
  (forall box monitor w2,
      dragItem w2 = dragItem w ->
      hoverPosition (world_of (hover P (Some box) monitor w2))
      = hoverPosition (world_of (hover P (Some box) monitor w)))
  /\ (exists w', run P (evs ++ [Drop]) w = Returned tt w'
                 /\ hoverPosition w' = PNone)
  /\ run P (evs ++ [PointerLeave]) w = run P evs w.
Proof.
  split; [|split].
  - intros box monitor w2 Hi. apply hover_recomputes. exact Hi.
  - rewrite run_app. unfold bind at 1.
    destruct (run_returns P evs w) as (w1 & ->). cbn [run dispatch]. unfold bind.
    destruct (drop_returns P w1) as (w' & -> & Hz). unfold ret. eauto.
  - rewrite run_app. unfold bind at 1.
    destruct (run_returns P evs w) as (w1 & ->). reflexivity.
Qed.

Lemma zone_lifecycle_witness :
  hoverPosition (world_of (hover (propsB true true) (Some box100) (pointer 10 50)
                                 (world0 (reorderItem nodeA 0) PRight)))
  = hoverPosition (world_of (hover (propsB true true) (Some box100) (pointer 10 50)
                                   (world0 (reorderItem nodeA 0) PNone))).
Proof.
  apply (proj1 (zone_lifecycle (propsB true true) []
                  (world0 (reorderItem nodeA 0) PNone))).
  reflexivity.
Defined.

(** ** Bands and midpoint *)

Lemma isTopOrBottom_position_at x y width height :
  isTopOrBottom (position_at x y width height)
  = (y <? height * 0.3) || (height * 0.7 <? y).
Proof.
  rewrite position_at_unfold.
  destruct (y <? height * 0.3); [reflexivity|].
  destruct (height * 0.7 <? y); [reflexivity|].
  destruct (x <? width * 0.3); [reflexivity|].
  destruct (width * 0.7 <? x); reflexivity.
Qed.

Lemma middle_band_04 h : (0 <=? h) = true ->
  (h * 0.4 <? h * 0.3) = false /\ (h * 0.7 <? h * 0.4) = false.
Proof. intros H. split; const_mono. Qed.

Lemma middle_band_06 h : (0 <=? h) = true ->
  (h * 0.6 <? h * 0.3) = false /\ (h * 0.7 <? h * 0.6) = false.
Proof. intros H. split; const_mono. Qed.

Lemma middle_band_half h : (0 <=? h) = true ->
  (h / 2 <? h * 0.3) = false /\ (h * 0.7 <? h / 2) = false.
Proof. intros H. rewrite div_two. split; const_mono. Qed.

Lemma top_band_above_midpoint y h :
  (0 <=? h) = true -> (y <? h * 0.3) = true -> (y <? h / 2) = true.
Proof. intros. rewrite div_two. below_mono. Qed.

Lemma bottom_band_below_midpoint y h :
  (0 <=? h) = true -> (h * 0.7 <? y) = true -> (h / 2 <? y) = true.
Proof. intros. rewrite div_two. above_mono. Qed.

Lemma bottom_band_not_top y h :
  (0 <=? h) = true -> (h * 0.7 <? y) = true -> (y <? h * 0.3) = false.
Proof. intros. apply ltb_asym. above_mono. Qed.

(** C3, counterexample.  On the 100 by 100 box, with [dragIndex = 2] and
    [hoverIndex = 5], the tick at [y = 60 = height * 0.6] stores centre and
    moves nothing. *)
Lemma directional_guard_claim_fails : ~ directional_guard_claim.
Proof.
  intros H.
  destruct (H (propsAt 5) box100 {| coord_x := 50; coord_y := 60 |}
              (world0 (reorderItem nodeA 2) PNone) nodeA
              (conj eq_refl eq_refl) eq_refl eq_refl) as (_ & H6 & _).
  destruct (H6 eq_refl) as [Hc _]. vm_compute in Hc. discriminate Hc.
Qed.

(** C3, amended.  For a reorder-origin hover with [dragIndex = 2] and
    [hoverIndex = 5] over a box of non-negative height, a tick at
    [y = height * 0.4] commits no move and neither does a tick at
    [y = height * 0.6]: both lie in the middle band, where the handler never
    moves.  A tick in the bottom band, [y > height * 0.7], commits exactly
    one [onMoveComponent (2, 5)], after which the tracked index of the
    payload is 5.  In general a move is committed only in the top or bottom
    band, a downward move only when [y >= height / 2] and an upward move only
    when [y <= height / 2]. *)
Theorem directional_guard P box clientOffset w d :
  reorderOrigin (dragItem w) d ->
  let y := coord_y clientOffset - rect_top box in
  let height := rect_height box in
  let dragIndex := item_index (dragItem w) in
  let hoverIndex := index P in
  let w' := world_of (hover P (Some box)
                            {| getClientOffset := Some clientOffset |} w) in
  ((0 <=? height) = true -> dragIndex = 2 -> hoverIndex = 5 ->
   (y = height * 0.4 \/ y = height * 0.6 ->
    calls w' = calls w /\ item_index (dragItem w') = 2)
   /\ ((height * 0.7 <? y) = true ->
       calls w' = calls w ++ [MoveComponent 2 5]
       /\ item_index (dragItem w') = 5))
  /\ (calls w' <> calls w ->
      isTopOrBottom (hoverPosition w') = true
      /\ ((dragIndex <? hoverIndex) = true -> (height / 2 <=? y) = true)
      /\ ((hoverIndex <? dragIndex) = true -> (y <=? height / 2) = true)).
Proof.
  intros Hr y height dragIndex hoverIndex w'.
  pose proof (reorderOrigin_not_foreign _ _ Hr) as Hf.
  split.
  - intros Hh Hd Hi.
    assert (He : (item_index (dragItem w) =? index P) = false).
    { fold dragIndex hoverIndex. rewrite Hd, Hi. reflexivity. }
    subst w'. rewrite hover_reorder_mounted by assumption. cbv zeta.
    fold y height dragIndex hoverIndex. unfold commits, classify.
    rewrite isTopOrBottom_position_at. fold y height. rewrite Hd, Hi.
    split.
    + intros [Hy|Hy]; rewrite Hy.
      * destruct (middle_band_04 height Hh) as [-> ->]. cbn. split; [reflexivity|].
        exact Hd.
      * destruct (middle_band_06 height Hh) as [-> ->]. cbn. split; [reflexivity|].
        exact Hd.
    + intros Hy. rewrite Hy, orb_true_r.
      rewrite (ltb_asym _ _ (bottom_band_below_midpoint y height Hh Hy)).
      cbn. split; reflexivity.
  - intros Hc. subst w'.
    destruct (item_index (dragItem w) =? index P) eqn:He.
    { rewrite hover_self_mounted in Hc by assumption. cbn in Hc. congruence. }
    rewrite hover_reorder_mounted in Hc |- * by assumption. cbv zeta in Hc |- *.
    fold y height dragIndex hoverIndex in Hc |- *.
    destruct (commits dragIndex hoverIndex y height (classify clientOffset box))
      eqn:Hcm; [|cbn in Hc; congruence].
    cbn [world_of hoverPosition]. unfold commits in Hcm.
    apply andb_true_iff in Hcm. destruct Hcm as [Hcm Hup].
    apply andb_true_iff in Hcm. destruct Hcm as [Htb Hdown].
    split; [exact Htb|].
    unfold classify in Htb. rewrite isTopOrBottom_position_at in Htb.
    fold y height in Htb.
    assert (Htri : ((y <? height / 2) = false -> (height / 2 <=? y) = true)
                   /\ ((height / 2 <? y) = false -> (y <=? height / 2) = true)).
    { apply orb_true_iff in Htb. destruct Htb as [Ht|Hb].
      - apply (midpoint_trichotomy y height 0.3 _ _ _ eq_refl);
          [vm_compute; discriminate|now left].
      - apply (midpoint_trichotomy y height 0.7 _ _ _ eq_refl);
          [vm_compute; discriminate|now right]. }
    destruct Htri as [Hlo Hhi].
    split; intros Hlt; [apply Hlo|apply Hhi].
    + rewrite Hlt in Hdown. cbn in Hdown. now apply negb_true_iff in Hdown.
    + rewrite Hlt in Hup. cbn in Hup. now apply negb_true_iff in Hup.
Qed.

Lemma directional_guard_witness :
  calls (world_of (hover (propsAt 5) (Some box100) (pointer 50 80)
                         (world0 (reorderItem nodeA 2) PNone)))
  = [MoveComponent 2 5]
  /\ item_index
       (dragItem (world_of (hover (propsAt 5) (Some box100) (pointer 50 80)
                                  (world0 (reorderItem nodeA 2) PNone)))) = 5.
Proof.
  apply (proj2 (proj1 (directional_guard (propsAt 5) box100
                         {| coord_x := 50; coord_y := 80 |}
                         (world0 (reorderItem nodeA 2) PNone) nodeA
                         (conj eq_refl eq_refl))
                      eq_refl eq_refl eq_refl)).
  reflexivity.
Defined.

(** C9.  The four threshold comparisons are strict: a pointer exactly at
    [height * 0.3] is not top, exactly at [height * 0.7] not bottom, exactly
    at [width * 0.3] not left, exactly at [width * 0.7] not right.  Such a
    point falls through to the later checks, and a point on which no check
    fires is centre; in particular the geometric centre of every box whose
    width and height are not negative, a zero-sized box included, is
    centre. *)
Theorem thresholds_are_strict clientOffset box :
  let x := coord_x clientOffset - rect_left box in
  let y := coord_y clientOffset - rect_top box in
  let width := rect_width box in
  let height := rect_height box in
  (y = height * 0.3 ->
   classify clientOffset box <> PTop
   /\ classify clientOffset box
      = if height * 0.7 <? y then PBottom
        else if x <? width * 0.3 then PLeft
        else if width * 0.7 <? x then PRight
        else PCenter)
  /\ (y = height * 0.7 -> classify clientOffset box <> PBottom)
  /\ (x = width * 0.3 -> classify clientOffset box <> PLeft)
  /\ (x = width * 0.7 -> classify clientOffset box <> PRight)
  /\ ((y <? height * 0.3) = false -> (height * 0.7 <? y) = false ->
      (x <? width * 0.3) = false -> (width * 0.7 <? x) = false ->
      classify clientOffset box = PCenter)
  /\ ((0 <=? width) = true -> (0 <=? height) = true ->
      x = width / 2 -> y = height / 2 ->
      classify clientOffset box = PCenter).
Proof.
  intros x y width height. unfold classify. rewrite position_at_unfold.
  fold x y width height.
  assert (Hcenter : (y <? height * 0.3) = false -> (height * 0.7 <? y) = false ->
                    (x <? width * 0.3) = false -> (width * 0.7 <? x) = false ->
                    (if y <? height * 0.3 then PTop
                     else if height * 0.7 <? y then PBottom
                     else if x <? width * 0.3 then PLeft
                     else if width * 0.7 <? x then PRight
                     else PCenter) = PCenter).
  { intros -> -> -> ->. reflexivity. }
  repeat split.
  - rewrite H, ltb_irrefl.
    destruct (height * 0.7 <? height * 0.3); [discriminate|].
    destruct (x <? width * 0.3); [discriminate|].
    destruct (width * 0.7 <? x); discriminate.
  - rewrite H, ltb_irrefl. reflexivity.
  - intros ->. rewrite ltb_irrefl.
    destruct (height * 0.7 <? height * 0.3); [discriminate|].
    destruct (x <? width * 0.3); [discriminate|].
    destruct (width * 0.7 <? x); discriminate.
  - intros ->. rewrite ltb_irrefl.
    destruct (y <? height * 0.3); [discriminate|].
    destruct (height * 0.7 <? y); [discriminate|].
    destruct (width * 0.7 <? width * 0.3); discriminate.
  - intros ->. rewrite ltb_irrefl.
    destruct (y <? height * 0.3); [discriminate|].
    destruct (height * 0.7 <? y); [discriminate|].
    destruct (width * 0.7 <? width * 0.3); discriminate.
  - exact Hcenter.
  - intros Hw Hh -> ->.
    destruct (middle_band_half width Hw) as [Hw1 Hw2].
    destruct (middle_band_half height Hh) as [Hh1 Hh2].
    rewrite Hw1, Hw2, Hh1, Hh2. reflexivity.
Qed.

Lemma thresholds_are_strict_witness :
  classify {| coord_x := 7; coord_y := 9 |}
           {| rect_left := 7; rect_top := 9; rect_width := 0; rect_height := 0 |}
  = PCenter.
Proof.
  apply (proj2 (proj2 (proj2 (proj2 (proj2
           (thresholds_are_strict
              {| coord_x := 7; coord_y := 9 |}
              {| rect_left := 7; rect_top := 9;
                 rect_width := 0; rect_height := 0 |}))))));
    reflexivity.
Defined.

(** * Further properties of the code *)

(** ** The parent lookup *)

Lemma findParentRowLayout_in_cons comp rest target :
  findParentRowLayout_in (comp :: rest) target
  = if holdsTarget target comp then Some comp
    else findParentRowLayout_in rest target.
Proof.
  cbn [findParentRowLayout_in]. unfold holdsTarget.
  destruct (String.eqb (comp_type comp) "horizontal_layout"); [|reflexivity].
  destruct (comp_children comp) as [children|]; [|reflexivity].
  destruct (hasChild target children); reflexivity.
Qed.

(** X1.  [findParentRowLayout] answers the first component of
    [allComponents], in list order, that is a row layout holding a child with
    the target's id: it answers [R] exactly when [R] is such a row and no
    component before it is. *)
Theorem findParentRowLayout_first_match P target R :
  findParentRowLayout P target = Some R <->
  exists pre post,
    allComponents P = pre ++ R :: post
    /\ holdsTarget target R = true
    /\ forallb (fun comp => negb (holdsTarget target comp)) pre = true.
Proof.
  unfold findParentRowLayout. generalize (allComponents P). intros comps. split.
  - induction comps as [|comp rest IH]; [discriminate|].
    rewrite findParentRowLayout_in_cons.
    destruct (holdsTarget target comp) eqn:Hh.
    + intros [= <-]. exists [], rest. repeat split. exact Hh.
    + intros H. destruct (IH H) as (pre & post & -> & HR & Hpre).
      exists (comp :: pre), post. repeat split; [exact HR|].
      cbn. rewrite Hh. exact Hpre.
  - intros (pre & post & -> & HR & Hpre).
    induction pre as [|comp pre IH]; cbn [app].
    + rewrite findParentRowLayout_in_cons, HR. reflexivity.
    + cbn in Hpre. apply andb_true_iff in Hpre. destruct Hpre as [Hc Hpre].
      apply negb_true_iff in Hc.
      rewrite findParentRowLayout_in_cons, Hc. apply IH. exact Hpre.
Qed.

(** X2.  The lookup reads the target's id and nothing else of it, and
    components that are not row layouts never change its answer: looking the
    target up among the row layouts alone gives the same row. *)
Theorem findParentRowLayout_reads_id_and_rows comps target target' :
  comp_id target = comp_id target' ->
  findParentRowLayout_in comps target = findParentRowLayout_in comps target'
  /\ findParentRowLayout_in
       (filter (fun comp => String.eqb (comp_type comp) "horizontal_layout") comps)
       target
     = findParentRowLayout_in comps target.
Proof.
  intros Hid. split.
  - induction comps as [|comp rest IH]; [reflexivity|].
    rewrite !findParentRowLayout_in_cons, IH. unfold holdsTarget, hasChild.
    rewrite Hid. reflexivity.
  - induction comps as [|comp rest IH]; [reflexivity|].
    cbn [filter]. rewrite (findParentRowLayout_in_cons comp rest).
    destruct (String.eqb (comp_type comp) "horizontal_layout") eqn:Ht.
    + rewrite findParentRowLayout_in_cons, IH. reflexivity.
    + unfold holdsTarget. rewrite Ht. exact IH.
Qed.

Lemma findParentRowLayout_reads_id_and_rows_witness :
  findParentRowLayout_in [nodeA; rowR] nodeB
  = findParentRowLayout_in [nodeA; rowR] (mkFormComponentData "b" "select" "copy" None).
Proof.
  apply (proj1 (findParentRowLayout_reads_id_and_rows
                  [nodeA; rowR] nodeB
                  (mkFormComponentData "b" "select" "copy" None) eq_refl)).
Defined.

(** ** Whole gestures *)

Lemma world_eta w :
  {| hoverPosition := hoverPosition w; dragItem := dragItem w; calls := calls w |} = w.
Proof. destruct w; reflexivity. Qed.

(** X3.  With a palette or row-member payload no sequence of hover ticks,
    pointer leaves and drops makes the item invoke a callback or touch the
    payload, and none raises an error. *)
Theorem foreign_gesture_is_silent P evs w :
  isPaletteComponent (dragItem w) || isHorizontalComponent (dragItem w) = true ->
  exists w',
    run P evs w = Returned tt w'
    /\ calls w' = calls w /\ dragItem w' = dragItem w.
Proof.
  revert w. induction evs as [|ev evs IH]; intros w Hf.
  - exists w. repeat split.
  - cbn [run]. unfold bind.
    assert (Hstep : exists w1, dispatch P ev w = Returned tt w1
                               /\ calls w1 = calls w /\ dragItem w1 = dragItem w).
    { destruct ev as [[box|] monitor| |]; cbn [dispatch].
      - rewrite hover_foreign_mounted by exact Hf. eexists. repeat split.
      - rewrite hover_unmounted. eexists. repeat split.
      - rewrite drop_foreign by now left. eexists. repeat split.
      - eexists. repeat split. }
    destruct Hstep as (w1 & -> & Hc1 & Hi1).
    destruct (IH w1) as (w' & Hrun & Hc & Hi); [rewrite Hi1; exact Hf|].
    exists w'. rewrite Hrun, Hc, Hi. repeat split; assumption.
Qed.

Lemma foreign_gesture_is_silent_witness :
  exists w',
    run (propsB true true)
        [Hover (Some box100) (pointer 10 50); PointerLeave;
         Hover (Some box100) (pointer 90 50); Drop]
        (world0 (rowMemberItem nodeC 1) PNone) = Returned tt w'
    /\ calls w' = [] /\ dragItem w' = rowMemberItem nodeC 1.
Proof.
  apply (foreign_gesture_is_silent (propsB true true)
           [Hover (Some box100) (pointer 10 50); PointerLeave;
            Hover (Some box100) (pointer 90 50); Drop]
           (world0 (rowMemberItem nodeC 1) PNone)).
  reflexivity.
Defined.

Lemma callAllowed_identity P a b c :
  item_component a = item_component b -> callAllowed P a c -> callAllowed P b c.
Proof. intros H. destruct c; cbn; rewrite ?H; trivial. Qed.

(** One event: at most one call, a move only from a hover tick, a row
    request only from a drop. *)
Lemma dispatch_step P ev w :
  exists w' new,
    dispatch P ev w = Returned tt w'
    /\ calls w' = calls w ++ new
    /\ Forall (callAllowed P (dragItem w)) new
    /\ sameIdentity (dragItem w') (dragItem w)
    /\ (item_index (dragItem w') = item_index (dragItem w)
        \/ item_index (dragItem w') = index P)
    /\ (List.length (filter isMove new) <= if isHoverEvent ev then 1 else 0)%nat
    /\ (List.length (filter (fun c => negb (isMove c)) new)
        <= if isDropEvent ev then 1 else 0)%nat.
Proof.
  assert (Hsame : sameIdentity (dragItem w) (dragItem w)) by (repeat split).
  assert (Hnil : forall w', calls w' = calls w -> calls w' = calls w ++ []).
  { intros w' ->. now rewrite app_nil_r. }
  destruct ev as [refCurrent monitor| |]; cbn [dispatch isHoverEvent isDropEvent].
  - (* hover *)
    destruct refCurrent as [box|];
      [|rewrite hover_unmounted; exists w, []; cbn; rewrite app_nil_r;
        repeat split; auto].
    destruct (isPaletteComponent (dragItem w) || isHorizontalComponent (dragItem w))
      eqn:Hf.
    { rewrite hover_foreign_mounted by exact Hf. eexists; exists [].
      cbn; rewrite app_nil_r. repeat split; auto. }
    destruct (item_index (dragItem w) =? index P) eqn:He.
    { rewrite hover_self_mounted by assumption. eexists; exists [].
      cbn; rewrite app_nil_r. repeat split; auto. }
    destruct monitor as [[clientOffset|]].
    + rewrite hover_reorder_mounted by assumption. cbv zeta.
      destruct (commits _ _ _ _ _).
      * eexists; eexists. split; [reflexivity|]. cbn.
        repeat split; auto. constructor; [reflexivity|constructor].
      * eexists; exists []. cbn; rewrite app_nil_r. repeat split; auto.
    + destruct (hover_mounted_no_offset P box w) as (w' & -> & Hc & Hi & _).
      exists w', []. rewrite Hi. cbn. repeat split; auto.
  - (* drop *)
    destruct (item_component (dragItem w)) as [d|] eqn:Hc;
      [destruct (isHorizontalComponent (dragItem w)) eqn:Hh|].
    + rewrite drop_foreign by (left; rewrite Hh; apply orb_true_r).
      eexists; exists []. cbn; rewrite app_nil_r. repeat split; auto.
    + rewrite (drop_reorder P w d) by (split; assumption). cbv zeta.
      destruct (isLeftOrRight (hoverPosition w)) eqn:Hz.
      * rewrite requestRow_cases. cbn [hoverPosition dragItem calls].
        eexists; eexists. split; [reflexivity|]. cbn [calls dragItem].
        split; [reflexivity|].
        destruct (findParentRowLayout P (component P)) as [R|] eqn:HR;
          [destruct (onAddToRowLayout P) eqn:Ha|];
          try destruct (onCreateRowLayout P) eqn:Hcr; cbn;
          repeat split; auto; repeat constructor; cbn; auto.
      * eexists; exists []. cbn; rewrite app_nil_r. repeat split; auto.
    + rewrite drop_foreign by now right.
      eexists; exists []. cbn; rewrite app_nil_r. repeat split; auto.
  - exists w, []. cbn. rewrite app_nil_r. repeat split; auto.
Qed.

(** X4.  Whatever the payload, the props and the sequence of events, the
    handlers return without an error, and all they do is append calls to the
    log: each call is either a move to the item's own index or a row request
    (through a callback that was supplied) for the payload's component,
    beside the item's component or into the row that holds it, on the left
    or right.  There are at most as many moves as hover ticks and at most as
    many row requests as drops.  The payload keeps its type, id and
    component, and its index is either what it was or the item's index. *)
Theorem gesture_calls_allowed P evs w :
  exists w' new,
    run P evs w = Returned tt w'
    /\ calls w' = calls w ++ new
    /\ Forall (callAllowed P (dragItem w)) new
    /\ sameIdentity (dragItem w') (dragItem w)
    /\ (item_index (dragItem w') = item_index (dragItem w)
        \/ item_index (dragItem w') = index P)
    /\ (List.length (filter isMove new) <= List.length (filter isHoverEvent evs))%nat
    /\ (List.length (filter (fun c => negb (isMove c)) new)
        <= List.length (filter isDropEvent evs))%nat.
Proof.
  revert w. induction evs as [|ev evs IH]; intros w.
  - exists w, []. cbn. rewrite app_nil_r. repeat split; auto.
  - cbn [run]. unfold bind.
    destruct (dispatch_step P ev w)
      as (w1 & new1 & -> & Hc1 & Ha1 & (Ht1 & Hi1 & Hk1) & Hx1 & Hm1 & Hd1).
    destruct (IH w1)
      as (w' & new2 & Hrun & Hc2 & Ha2 & (Ht2 & Hi2 & Hk2) & Hx2 & Hm2 & Hd2).
    exists w', (new1 ++ new2). rewrite Hrun.
    split; [reflexivity|].
    split; [rewrite Hc2, Hc1, app_assoc; reflexivity|].
    split.
    { apply Forall_app. split; [exact Ha1|].
      eapply Forall_impl; [|exact Ha2].
      intros c. apply callAllowed_identity. exact Hk1. }
    split; [repeat split; congruence|].
    split; [destruct Hx2 as [Hx2|Hx2]; [rewrite Hx2; exact Hx1|now right]|].
    rewrite !filter_app, !length_app. cbn [filter].
    destruct (isHoverEvent ev), (isDropEvent ev); cbn [List.length]; lia.
Qed.

Lemma drop_none P w :
  hoverPosition w = PNone -> drop P w = Returned tt w.
Proof.
  intros Hz.
  destruct (item_component (dragItem w)) as [d|] eqn:Hc;
    [destruct (isHorizontalComponent (dragItem w)) eqn:Hh|].
  - rewrite drop_foreign by (left; rewrite Hh; apply orb_true_r).
    rewrite <- Hz. now rewrite world_eta.
  - rewrite (drop_reorder P w d) by (split; assumption). cbv zeta.
    rewrite Hz. cbn. rewrite <- Hz. now rewrite world_eta.
  - rewrite drop_foreign by now right. rewrite <- Hz. now rewrite world_eta.
Qed.

(** X5.  A drop uses the cached position up: after it, further drops and
    pointer leaves change nothing and request nothing, until a new hover
    tick. *)
Theorem drop_consumes_position P evs w :
  forallb (fun ev => negb (isHoverEvent ev)) evs = true ->
  run P (Drop :: evs) w = run P [Drop] w.
Proof.
  intros Hev. cbn [run dispatch]. unfold bind.
  destruct (drop_returns P w) as (w1 & -> & Hz). unfold ret.
  revert Hev. induction evs as [|ev evs IH]; intros Hev; [reflexivity|].
  cbn in Hev. apply andb_true_iff in Hev. destruct Hev as [Hh Hev].
  cbn [run]. unfold bind.
  destruct ev as [refCurrent monitor| |]; [discriminate| |]; cbn [dispatch].
  - rewrite drop_none by exact Hz. apply IH. exact Hev.
  - unfold ret. apply IH. exact Hev.
Qed.

Lemma drop_consumes_position_witness :
  run (propsB true true) [Drop; Drop; PointerLeave; Drop]
      (world0 (reorderItem nodeA 0) PLeft)
  = run (propsB true true) [Drop] (world0 (reorderItem nodeA 0) PLeft).
Proof.
  apply (drop_consumes_position (propsB true true) [Drop; PointerLeave; Drop]
           (world0 (reorderItem nodeA 0) PLeft)).
  reflexivity.
Defined.

(** ** More on binary64 comparisons *)

Lemma ltb_not_eqb (x y : float) : (x <? y) = true -> (x =? y) = false.
Proof.
  rewrite ltb_spec, eqb_spec. unfold SFltb, SFeqb.
  destruct (SFcompare (Prim2SF x) (Prim2SF y)) as [[| |]|]; congruence.
Qed.

(** [x !== x] holds of NaN only. *)
Lemma nan_Prim2SF (x : float) : (x =? x) = false -> Prim2SF x = S754_nan.
Proof.
  rewrite eqb_spec. unfold SFeqb. intros H.
  destruct (SFcompare_refl (Prim2SF x)) as [Hc|Hc]; rewrite Hc in H;
    [discriminate|].
  destruct (SFcompare_None _ _ Hc); assumption.
Qed.

Lemma SFltb_nan_r x : SFltb x S754_nan = false.
Proof. destruct x as [s|s| |s m e]; reflexivity. Qed.

Lemma SFltb_nan_l x : SFltb S754_nan x = false.
Proof. reflexivity. Qed.

(** No comparison holds against a threshold of a NaN size. *)
Lemma nan_threshold (h c y : float) :
  (h =? h) = false -> (y <? h * c) = false /\ (h * c <? y) = false.
Proof.
  intros H. apply nan_Prim2SF in H.
  rewrite !ltb_spec, mul_spec, H. split; [apply SFltb_nan_r|reflexivity].
Qed.

(** No comparison holds of a NaN coordinate. *)
Lemma nan_coordinate (p o t : float) :
  (p =? p) = false -> (p - o <? t) = false /\ (t <? p - o) = false.
Proof.
  intros H. apply nan_Prim2SF in H.
  rewrite !ltb_spec, sub_spec, H. split; [reflexivity|apply SFltb_nan_r].
Qed.

Section Products.
Local Open Scope Z_scope.

Lemma SFmul_nonneg x m e :
  SFleb (S754_zero false) x = true -> 2 ^ 52 <= Z.pos m ->
  SFltb (SF64mul x (S754_finite false m e)) (S754_zero false) = false.
Proof.
  intros Hx Hm.
  destruct x as [s|s| |s mx ex]; try (destruct s; discriminate Hx || reflexivity).
  - discriminate Hx.
  - destruct s; [discriminate Hx|].
    rewrite SFmul_finite by exact Hm. cbn [xorb]. unfold pack.
    destruct (rne _ _) as [|p|p]; try reflexivity.
    destruct (Z.pos p <? 2 ^ 53);
      [destruct (_ <=? 971)|destruct (_ + 1 <=? 971)]; reflexivity.
Qed.

Lemma SFmul_one x : valid_binary x = true -> SF64mul x SFone = x.
Proof.
  intros Hv. destruct x as [s|s| |s m e]; try (destruct s; reflexivity); [reflexivity|].
  destruct (valid_finite_cases m e Hv) as (He & Hc).
  unfold SFone. rewrite SFmul_finite by (cbn; lia).
  destruct (Zdigits2_bounds (Z.pos m) ltac:(lia)) as (Hd0 & Hl & Hu).
  assert (Hdig : Zdigits2 (Z.pos (m * 4503599627370496)) = Zdigits2 (Z.pos m) + 52).
  { apply Zdigits2_unique; [lia|]. rewrite Pos2Z.inj_mul.
    change (Z.pos 4503599627370496) with (2 ^ 52).
    replace (Zdigits2 (Z.pos m) + 52 - 1) with (Zdigits2 (Z.pos m) - 1 + 52) by lia.
    rewrite !Z.pow_add_r by lia. nia. }
  rewrite Hdig, fexp64_eq, Pos2Z.inj_mul.
  change (Z.pos 4503599627370496) with (2 ^ 52).
  assert (Hm53 : Z.pos m < 2 ^ 53).
  { assert (2 ^ Zdigits2 (Z.pos m) <= 2 ^ 53) by (apply Z.pow_le_mono_r; lia). lia. }
  replace (Z.max (Zdigits2 (Z.pos m) + 52 + (e + -52) - 53) (-1074)) with e by lia.
  replace (e - (e + -52)) with 52 by lia. rewrite rne_exact by lia.
  unfold pack. rewrite xorb_false_r.
  replace (Z.pos m <? 2 ^ 53) with true by (symmetry; apply Z.ltb_lt; lia).
  replace (e <=? 971) with true by (symmetry; apply Z.leb_le; lia).
  reflexivity.
Qed.

End Products.

Lemma mul_one (h : float) : h * 1 = h.
Proof.
  apply Prim2SF_inj. rewrite mul_spec. change (Prim2SF 1) with SFone.
  apply SFmul_one. apply Prim2SF_valid.
Qed.

(** A threshold of a non-negative size is not negative. *)
Lemma threshold_nonneg (h c : float) m e :
  Prim2SF c = S754_finite false m e -> (2 ^ 52 <= Z.pos m)%Z ->
  (0 <=? h) = true -> (h * c <? 0) = false.
Proof.
  intros Hc Hm Hh. rewrite ltb_spec, mul_spec, Hc.
  apply SFmul_nonneg; [apply nonneg_SF; exact Hh|exact Hm].
Qed.

Lemma nonneg_notnan (h : float) : (0 <=? h) = true -> Prim2SF h <> S754_nan.
Proof.
  intros H. apply nonneg_SF in H. intros Hn. rewrite Hn in H. discriminate H.
Qed.

(** A pointer above the box is above its top threshold. *)
Lemma above_box_in_top_band (y h : float) :
  (0 <=? h) = true -> (y <? 0) = true -> (y <? h * 0.3) = true.
Proof.
  intros Hh Hy.
  pose proof (threshold_nonneg h 0.3 _ _ eq_refl ltac:(vm_compute; discriminate) Hh)
    as Hn.
  rewrite !ltb_spec, mul_spec in *.
  apply (SFltb_nlt_trans _ _ _ Hy Hn).
  apply SFmul_const_notnan; [vm_compute; discriminate|].
  apply nonneg_notnan. exact Hh.
Qed.

(** A pointer below the box is below its bottom threshold. *)
Lemma below_box_in_bottom_band (y h : float) :
  (0 <=? h) = true -> (h <? y) = true -> (h * 0.7 <? y) = true.
Proof.
  intros Hh Hy.
  assert (Hn : (h * 1 <? h * 0.7) = false) by const_mono.
  rewrite mul_one in Hn.
  rewrite !ltb_spec, mul_spec in *.
  apply (SFnlt_ltb_trans _ _ _ Hn); [|exact Hy].
  apply SFmul_const_notnan; [vm_compute; discriminate|].
  apply nonneg_notnan. exact Hh.
Qed.

(** ** The bands of a box of non-negative size *)

Lemma classify_unfold clientOffset box :
  classify clientOffset box =
  let x := coord_x clientOffset - rect_left box in
  let y := coord_y clientOffset - rect_top box in
  if y <? rect_height box * 0.3 then PTop
  else if rect_height box * 0.7 <? y then PBottom
  else if x <? rect_width box * 0.3 then PLeft
  else if rect_width box * 0.7 <? x then PRight
  else PCenter.
Proof. unfold classify. rewrite position_at_unfold. reflexivity. Qed.

(** X6.  On a box whose height is not negative the top and bottom bands do
    not overlap, so each zone is decided by its own comparisons: top is
    [y < height * 0.3], bottom is [y > height * 0.7] (no need to ask that
    top failed), left and right are the two side comparisons inside the
    middle band, and the classifier never answers none. *)
Theorem zones_partition clientOffset box :
  (0 <=? rect_height box) = true ->
  let x := coord_x clientOffset - rect_left box in
  let y := coord_y clientOffset - rect_top box in
  let width := rect_width box in
  let height := rect_height box in
  let middle := negb (y <? height * 0.3) && negb (height * 0.7 <? y) in
  (classify clientOffset box = PTop <-> (y <? height * 0.3) = true)
  /\ (classify clientOffset box = PBottom <-> (height * 0.7 <? y) = true)
  /\ (classify clientOffset box = PLeft
      <-> middle && (x <? width * 0.3) = true)
  /\ (classify clientOffset box = PRight
      <-> middle && negb (x <? width * 0.3) && (width * 0.7 <? x) = true)
  /\ classify clientOffset box <> PNone.
Proof.
  intros Hh x y width height middle. rewrite classify_unfold. cbv zeta.
  fold x y width height. subst middle.
  pose proof (bottom_band_not_top y height Hh) as Hdis.
  destruct (y <? height * 0.3) eqn:Ht.
  - destruct (height * 0.7 <? y) eqn:Hb; [specialize (Hdis eq_refl); discriminate|].
    cbn. repeat split; intros; try discriminate; try reflexivity.
  - destruct (height * 0.7 <? y) eqn:Hb.
    + cbn. repeat split; intros; try discriminate; try reflexivity.
    + destruct (x <? width * 0.3) eqn:Hl.
      * cbn. repeat split; intros; try discriminate; try reflexivity.
      * destruct (width * 0.7 <? x) eqn:Hrt; cbn;
          repeat split; intros; try discriminate; try reflexivity.
Qed.

Lemma zones_partition_witness :
  classify {| coord_x := 50; coord_y := 90 |} box100 = PBottom
  <-> (rect_height box100 * 0.7 <? 90 - rect_top box100) = true.
Proof.
  apply (proj1 (proj2 (zones_partition {| coord_x := 50; coord_y := 90 |} box100
                         eq_refl))).
Defined.

(** X7.  A pointer above the top edge of a box of non-negative height is
    classified top, and a pointer below its bottom edge bottom, whatever its
    horizontal position. *)
Theorem pointer_outside_box clientOffset box :
  (0 <=? rect_height box) = true ->
  let y := coord_y clientOffset - rect_top box in
  ((y <? 0) = true -> classify clientOffset box = PTop)
  /\ ((rect_height box <? y) = true -> classify clientOffset box = PBottom).
Proof.
  intros Hh y. rewrite classify_unfold. cbv zeta. fold y. split; intros Hy.
  - rewrite (above_box_in_top_band y _ Hh Hy). reflexivity.
  - pose proof (below_box_in_bottom_band y _ Hh Hy) as Hb.
    rewrite (bottom_band_not_top y _ Hh Hb), Hb. reflexivity.
Qed.

Lemma pointer_outside_box_witness :
  classify {| coord_x := 5; coord_y := 130 |} box100 = PBottom.
Proof.
  apply (proj2 (pointer_outside_box {| coord_x := 5; coord_y := 130 |} box100
                  eq_refl)).
  reflexivity.
Defined.

(** X8.  When the height of the box or the pointer's vertical coordinate is
    NaN the classifier never answers top or bottom, so a hover tick commits
    no move; when the horizontal data are NaN as well the answer is
    centre. *)
Theorem nan_geometry P clientOffset box w :
  (rect_height box =? rect_height box) = false
  \/ (coord_y clientOffset =? coord_y clientOffset) = false ->
  isTopOrBottom (classify clientOffset box) = false
  /\ (exists w',
         hover P (Some box) {| getClientOffset := Some clientOffset |} w
         = Returned tt w'
         /\ calls w' = calls w /\ dragItem w' = dragItem w)
  /\ ((rect_width box =? rect_width box) = false
      \/ (coord_x clientOffset =? coord_x clientOffset) = false ->
      classify clientOffset box = PCenter).
Proof.
  intros Hv.
  assert (Hy : (coord_y clientOffset - rect_top box <? rect_height box * 0.3) = false
               /\ (rect_height box * 0.7 <? coord_y clientOffset - rect_top box) = false).
  { destruct Hv as [Hn|Hn].
    - split; apply (nan_threshold _ _ _ Hn).
    - split; apply (nan_coordinate _ _ _ Hn). }
  destruct Hy as [Hy1 Hy2].
  assert (Htb : isTopOrBottom (classify clientOffset box) = false).
  { unfold classify. rewrite isTopOrBottom_position_at, Hy1, Hy2. reflexivity. }
  split; [exact Htb|]. split.
  - destruct (isPaletteComponent (dragItem w) || isHorizontalComponent (dragItem w))
      eqn:Hf.
    { rewrite hover_foreign_mounted by exact Hf. eexists. repeat split. }
    destruct (item_index (dragItem w) =? index P) eqn:He.
    { rewrite hover_self_mounted by assumption. eexists. repeat split. }
    rewrite hover_reorder_mounted by assumption. cbv zeta.
    unfold commits. rewrite Htb. cbn. eexists. repeat split.
  - intros Hh. rewrite classify_unfold. cbv zeta. rewrite Hy1, Hy2.
    destruct Hh as [Hn|Hn].
    + destruct (nan_threshold _ 0.3 (coord_x clientOffset - rect_left box) Hn) as [-> _].
      destruct (nan_threshold _ 0.7 (coord_x clientOffset - rect_left box) Hn) as [_ ->].
      reflexivity.
    + destruct (nan_coordinate _ (rect_left box) (rect_width box * 0.3) Hn) as [-> _].
      destruct (nan_coordinate _ (rect_left box) (rect_width box * 0.7) Hn) as [_ ->].
      reflexivity.
Qed.

Lemma nan_geometry_witness :
  isTopOrBottom (classify {| coord_x := 10; coord_y := 10 |}
                          {| rect_left := 0; rect_top := 0;
                             rect_width := 100; rect_height := nan |}) = false.
Proof.
  apply (proj1 (nan_geometry (propsAt 5) {| coord_x := 10; coord_y := 10 |}
                  {| rect_left := 0; rect_top := 0;
                     rect_width := 100; rect_height := nan |}
                  (world0 (reorderItem nodeA 2) PNone)
                  (or_introl eq_refl))).
Defined.

(** ** Moves *)

(** X9.  Over a box of non-negative height the midpoint guard never
    decides: a downward drag ([dragIndex < hoverIndex]) commits its move
    exactly when the pointer is in the bottom band, an upward drag exactly
    when it is in the top band. *)
Theorem move_commits_in_far_band P box clientOffset w d :
  reorderOrigin (dragItem w) d ->
  (0 <=? rect_height box) = true ->
  let y := coord_y clientOffset - rect_top box in
  let height := rect_height box in
  let dragIndex := item_index (dragItem w) in
  let hoverIndex := index P in
  let w' := world_of (hover P (Some box)
                            {| getClientOffset := Some clientOffset |} w) in
  ((dragIndex <? hoverIndex) = true ->
   calls w' = calls w ++ (if height * 0.7 <? y
                          then [MoveComponent dragIndex hoverIndex] else []))
  /\ ((hoverIndex <? dragIndex) = true ->
      calls w' = calls w ++ (if y <? height * 0.3
                             then [MoveComponent dragIndex hoverIndex] else [])).
Proof.
  intros Hr Hh y height dragIndex hoverIndex w'.
  pose proof (reorderOrigin_not_foreign _ _ Hr) as Hf.
  fold height in Hh.
  assert (Hgo : (dragIndex =? hoverIndex) = false ->
                calls w' = calls w ++
                  (if commits dragIndex hoverIndex y height (classify clientOffset box)
                   then [MoveComponent dragIndex hoverIndex] else [])).
  { intros He. subst w'. rewrite hover_reorder_mounted by assumption. cbv zeta.
    fold y height dragIndex hoverIndex.
    destruct (commits _ _ _ _ _); cbn; [reflexivity|now rewrite app_nil_r]. }
  assert (Hc : commits dragIndex hoverIndex y height (classify clientOffset box)
               = ((y <? height * 0.3) || (height * 0.7 <? y))
                 && negb ((dragIndex <? hoverIndex) && (y <? height / 2))
                 && negb ((hoverIndex <? dragIndex) && (height / 2 <? y))).
  { unfold commits, classify. rewrite isTopOrBottom_position_at. reflexivity. }
  clearbody w' y height dragIndex hoverIndex.
  pose proof (top_band_above_midpoint y height Hh) as Htop.
  pose proof (bottom_band_below_midpoint y height Hh) as Hbot.
  pose proof (bottom_band_not_top y height Hh) as Hdis.
  split; intros Hlt.
  - rewrite Hgo by (apply ltb_not_eqb; exact Hlt). f_equal. rewrite Hc, Hlt.
    rewrite (ltb_asym _ _ Hlt). cbn [andb negb].
    destruct (height * 0.7 <? y) eqn:Hb.
    + rewrite (ltb_asym _ _ (Hbot eq_refl)), orb_true_r. reflexivity.
    + rewrite orb_false_r. destruct (y <? height * 0.3) eqn:Ht; [|reflexivity].
      rewrite (Htop eq_refl). reflexivity.
  - assert (He : (dragIndex =? hoverIndex) = false).
    { rewrite eqb_spec. pose proof (ltb_not_eqb _ _ Hlt) as Hn.
      rewrite eqb_spec in Hn. unfold SFeqb in *.
      rewrite (SFcompare_antisym (Prim2SF hoverIndex) (Prim2SF dragIndex)).
      destruct (SFcompare (Prim2SF hoverIndex) (Prim2SF dragIndex)) as [[| |]|];
        cbn in *; congruence. }
    rewrite Hgo by exact He. f_equal. rewrite Hc, Hlt.
    rewrite (ltb_asym _ _ Hlt). cbn [andb negb].
    destruct (y <? height * 0.3) eqn:Ht.
    + rewrite (ltb_asym _ _ (Htop eq_refl)). reflexivity.
    + cbn [orb]. destruct (height * 0.7 <? y) eqn:Hb; [|reflexivity].
      rewrite (Hbot eq_refl). reflexivity.
Qed.

Lemma move_commits_in_far_band_witness :
  calls (world_of (hover (propsAt 1) (Some box100) (pointer 50 20)
                         (world0 (reorderItem nodeA 4) PNone)))
  = [MoveComponent 4 1].
Proof.
  apply (proj2 (move_commits_in_far_band (propsAt 1) box100
                  {| coord_x := 50; coord_y := 20 |}
                  (world0 (reorderItem nodeA 4) PNone) nodeA
                  (conj eq_refl eq_refl) eq_refl)).
  reflexivity.
Defined.

(** X10.  Once a tick has committed a move the payload carries the item's
    index, so every further tick over that item is a hover of the item over
    itself: it stores none and moves nothing, as long as the item's index is
    a number. *)
Theorem committed_move_is_not_repeated P box clientOffset w :
  let w1 := world_of (hover P (Some box)
                            {| getClientOffset := Some clientOffset |} w) in
  calls w1 <> calls w ->
  (index P =? index P) = true ->
  item_index (dragItem w1) = index P
  /\ forall box' monitor',
      hover P (Some box') monitor' w1
      = Returned tt {| hoverPosition := PNone; dragItem := dragItem w1;
                       calls := calls w1 |}.
Proof.
  intros w1 Hc Hnum. subst w1.
  destruct (isPaletteComponent (dragItem w) || isHorizontalComponent (dragItem w))
    eqn:Hf.
  { rewrite hover_foreign_mounted in Hc by exact Hf. cbn in Hc. congruence. }
  destruct (item_index (dragItem w) =? index P) eqn:He.
  { rewrite hover_self_mounted in Hc by assumption. cbn in Hc. congruence. }
  rewrite hover_reorder_mounted in Hc |- * by assumption. cbv zeta in Hc |- *.
  destruct (commits _ _ _ _ _); [|cbn in Hc; congruence].
  cbn [world_of dragItem item_index]. split; [reflexivity|].
  intros box' monitor'. apply hover_self_mounted; [exact Hf|exact Hnum].
Qed.

Lemma committed_move_is_not_repeated_witness :
  hover (propsAt 5) (Some box100) (pointer 50 80)
        (world_of (hover (propsAt 5) (Some box100) (pointer 50 80)
                         (world0 (reorderItem nodeA 2) PNone)))
  = Returned tt {| hoverPosition := PNone;
                   dragItem := reorderItem nodeA 5;
                   calls := [MoveComponent 2 5] |}.
Proof.
  apply (proj2 (committed_move_is_not_repeated (propsAt 5) box100
                  {| coord_x := 50; coord_y := 80 |}
                  (world0 (reorderItem nodeA 2) PNone)
                  ltac:(vm_compute; discriminate) eq_refl)).
Defined.

(** ** A tick and the drop after it *)

(** X11.  A reorder tick over another item followed by the drop issues the
    move of the tick, if the tick committed one, and then the row request of
    the drop, if the tick stored left or right; never both, so a single
    placement is either a reorder or a row request.  After the drop the
    cached position is none. *)
Theorem hover_then_drop P box clientOffset w d :
  reorderOrigin (dragItem w) d ->
  (item_index (dragItem w) =? index P) = false ->
  let moves := tickMoves P (dragItem w) box clientOffset in
  let rows := dropRequests P d (classify clientOffset box) in
  (exists w',
      run P [Hover (Some box) {| getClientOffset := Some clientOffset |}; Drop] w
      = Returned tt w'
      /\ hoverPosition w' = PNone
      /\ calls w' = calls w ++ moves ++ rows)
  /\ (moves = [] \/ rows = []).
Proof.
  intros Hr He moves rows.
  pose proof (reorderOrigin_not_foreign _ _ Hr) as Hf.
  assert (Hex : isTopOrBottom (classify clientOffset box) = true ->
                isLeftOrRight (classify clientOffset box) = false).
  { destruct (classify clientOffset box); cbn; congruence. }
  split.
  - cbn [run dispatch]. unfold bind.
    rewrite hover_reorder_mounted by assumption. cbv zeta.
    subst moves rows. unfold tickMoves, dropRequests.
    destruct (commits _ _ _ _ _) eqn:Hc;
      rewrite (drop_reorder P _ d) by exact Hr; cbv zeta;
      cbn [hoverPosition dragItem calls];
      destruct (isLeftOrRight (classify clientOffset box)) eqn:Hz;
      rewrite ?requestRow_cases; unfold ret; eexists;
      (split; [reflexivity|split; [reflexivity|]]);
      cbn [calls app]; rewrite <- ?app_assoc, ?app_nil_r; reflexivity.
  - subst moves rows. unfold tickMoves, dropRequests, commits.
    destruct (isTopOrBottom (classify clientOffset box)) eqn:Htb.
    + right. rewrite (Hex eq_refl). reflexivity.
    + left. reflexivity.
Qed.

Lemma hover_then_drop_witness :
  exists w',
    run (propsB true true) [Hover (Some box100) (pointer 10 50); Drop]
        (world0 (reorderItem nodeA 0) PNone)
    = Returned tt w'
    /\ hoverPosition w' = PNone
    /\ calls w' = [AddToRowLayout nodeA rowR PLeft].
Proof.
  apply (proj1 (hover_then_drop (propsB true true) box100
                  {| coord_x := 10; coord_y := 50 |}
                  (world0 (reorderItem nodeA 0) PNone) nodeA
                  (conj eq_refl eq_refl) eq_refl)).
Defined.

(** X12.  The payload that an item builds for its own drag is a reorder
    payload for every item's handlers, whatever the type tag of its
    component; dragged over the item that built it, at an index that is a
    number, it makes the hover tick store none and the drop request
    nothing. *)
Theorem own_payload_over_itself P box monitor p log :
  (index P =? index P) = true ->
  reorderOrigin (useDrag_item P) (component P)
  /\ run P [Hover (Some box) monitor; Drop]
         {| hoverPosition := p; dragItem := useDrag_item P; calls := log |}
     = Returned tt {| hoverPosition := PNone; dragItem := useDrag_item P;
                      calls := log |}.
Proof.
  intros Hnum.
  assert (Hr : reorderOrigin (useDrag_item P) (component P)) by (split; reflexivity).
  split; [exact Hr|].
  cbn [run dispatch]. unfold bind.
  rewrite hover_self_mounted; [|reflexivity|exact Hnum].
  cbn [dragItem calls]. rewrite drop_none by reflexivity. reflexivity.
Qed.

Lemma own_payload_over_itself_witness :
  run (propsB true true) [Hover (Some box100) (pointer 10 50); Drop]
      {| hoverPosition := PRight; dragItem := useDrag_item (propsB true true);
         calls := [] |}
  = Returned tt {| hoverPosition := PNone;
                   dragItem := useDrag_item (propsB true true); calls := [] |}.
Proof.
  apply (proj2 (own_payload_over_itself (propsB true true) box100 (pointer 10 50)
                  PRight [] eq_refl)).
Defined.

(** ** [classNames] *)

Lemma append_assoc (a b c : string) :
  String.append (String.append a b) c = String.append a (String.append b c).
Proof. induction a as [|ch a IH]; cbn; [reflexivity|now rewrite IH]. Qed.

Lemma append_empty_r (a : string) : String.append a "" = a.
Proof. induction a as [|ch a IH]; cbn; [reflexivity|now rewrite IH]. Qed.


Lemma append_eq_empty (a b : string) : String.append a b = "" -> a = "".
Proof. destruct a; [reflexivity|discriminate]. Qed.

Lemma toBoolean_true c : toBoolean c = true -> joinString c <> "".
Proof.
  destruct c as [s| | |]; try discriminate. cbn.
  destruct (String.eqb_spec s ""); [discriminate|auto].
Qed.

Lemma filter_toBoolean_Forall classes :
  Forall (fun c => toBoolean c = true) (filter toBoolean classes).
Proof.
  apply Forall_forall. intros c Hc. apply filter_In in Hc. tauto.
Qed.

Lemma join_cons sep c rest :
  rest <> [] ->
  join sep (c :: rest)
  = String.append (joinString c) (String.append sep (join sep rest)).
Proof. destruct rest; [congruence|reflexivity]. Qed.

Lemma join_not_empty sep l :
  l <> [] -> Forall (fun c => toBoolean c = true) l -> join sep l <> "".
Proof.
  destruct l as [|c rest]; [congruence|]. intros _ Hall.
  inversion Hall as [|? ? Hc _]; subst. apply toBoolean_true in Hc.
  destruct rest; cbn [join]; [exact Hc|].
  intros H. apply append_eq_empty in H. contradiction.
Qed.

Lemma join_app sep l1 l2 :
  l1 <> [] -> l2 <> [] ->
  join sep (l1 ++ l2)
  = String.append (join sep l1) (String.append sep (join sep l2)).
Proof.
  intros H1 H2. induction l1 as [|c l1 IH]; [congruence|].
  destruct l1 as [|c' l1].
  - cbn [app]. rewrite join_cons by exact H2. reflexivity.
  - cbn [app] in *. rewrite (join_cons sep c (c' :: (l1 ++ l2))) by discriminate.
    rewrite IH by discriminate.
    rewrite (join_cons sep c (c' :: l1)) by discriminate.
    rewrite !append_assoc. reflexivity.
Qed.

Lemma classNames_pair x y :
  classNames [ClassString x; ClassString y]
  = if String.eqb x "" then y
    else if String.eqb y "" then x
         else String.append x (String.append " " y).
Proof.
  unfold classNames. cbn [filter toBoolean].
  destruct (String.eqb_spec x "") as [->|Hx], (String.eqb_spec y "") as [->|Hy];
    reflexivity.
Qed.

(** X13.  [classNames] flattens: joining the class names of two argument
    lists is the same as calling it on the two results, so a component can
    pass the output of one call as an argument of another, and an empty
    result adds no separator. *)
Theorem classNames_flattens l1 l2 :
  classNames (l1 ++ l2)
  = classNames [ClassString (classNames l1); ClassString (classNames l2)].
Proof.
  rewrite classNames_pair. unfold classNames. rewrite filter_app.
  pose proof (filter_toBoolean_Forall l1) as Ha.
  pose proof (filter_toBoolean_Forall l2) as Hb.
  destruct (filter toBoolean l1) as [|ca a'].
  - reflexivity.
  - assert (Hna : join " " (ca :: a') <> "")
      by (apply join_not_empty; [discriminate|exact Ha]).
    destruct (String.eqb_spec (join " " (ca :: a')) ""); [contradiction|].
    destruct (filter toBoolean l2) as [|cb b'].
    + rewrite app_nil_r. reflexivity.
    + assert (Hnb : join " " (cb :: b') <> "")
        by (apply join_not_empty; [discriminate|exact Hb]).
      destruct (String.eqb_spec (join " " (cb :: b')) ""); [contradiction|].
      apply join_app; discriminate.
Qed.

(** X14.  Falsy arguments ([undefined], [null], [false] and the empty
    string) leave no trace in the result, not even a separator, wherever they
    stand; and the result is the empty string exactly when every argument is
    falsy. *)
Theorem classNames_ignores_falsy l1 c l2 :
  toBoolean c = false ->
  classNames (l1 ++ c :: l2) = classNames (l1 ++ l2)
  /\ (classNames (l1 ++ l2) = ""
      <-> forallb (fun x => negb (toBoolean x)) (l1 ++ l2) = true).
Proof.
  intros Hc. split.
  - unfold classNames. rewrite !filter_app. cbn [filter]. rewrite Hc. reflexivity.
  - generalize (l1 ++ l2). intros l. unfold classNames. split.
    + intros H. apply forallb_forall. intros x Hx.
      destruct (toBoolean x) eqn:Hb; [|reflexivity].
      exfalso. apply (join_not_empty " " (filter toBoolean l)).
      * intros Hnil. assert (Hin : In x (filter toBoolean l))
          by (apply filter_In; split; assumption).
        rewrite Hnil in Hin. destruct Hin.
      * apply filter_toBoolean_Forall.
      * exact H.
    + intros H. replace (filter toBoolean l) with (@nil ClassValue); [reflexivity|].
      symmetry. induction l as [|x l IH]; [reflexivity|].
      cbn in H. apply andb_true_iff in H. destruct H as [Hx Hl].
      apply negb_true_iff in Hx. cbn [filter]. rewrite Hx. apply IH. exact Hl.
Qed.

Lemma classNames_ignores_falsy_witness :
  classNames ([ClassString "btn"] ++ ClassFalse :: [ClassString "btn--active"])
  = classNames ([ClassString "btn"] ++ [ClassString "btn--active"]).
Proof.
  apply (proj1 (classNames_ignores_falsy [ClassString "btn"] ClassFalse
                  [ClassString "btn--active"] eq_refl)).
Defined.

